(** * The QNX QSA audio backend of SDL: src/audio/qnx/SDL_qsa_audio.c

    A shallow embedding of the driver's functions, and the properties of
    the format table, of format negotiation, of the write path, of device
    enumeration and of the device life cycle that hold (or fail) on it.

    Conventions of the embedding.
    - C integers ([int], [int32_t], [Uint32], pointers) are [Z]; a NULL
      pointer is [0].  Unsigned 32-bit arithmetic is written with its
      reduction modulo [2^32].  Signed overflow is undefined in C and is
      not given a meaning here.
    - Every call that leaves the driver (the QSA library, the C library,
      the SDL host) appends an [event] to a trace; what the outside world
      answers is read from a [Native] record, indexed by the number of
      events so far, so that two calls with equal arguments may be
      answered differently.
    - Constants that come from headers which are not part of the sources
      are the fields of [Headers]. *)

From Stdlib Require Import ZArith List String Bool Lia.
Import ListNotations.
Local Open Scope string_scope.
Local Open Scope list_scope.
Local Open Scope Z_scope.

(** ** Constants of the platform and host headers *)

(** The driver includes [<errno.h>], [<sys/asoundlib.h>],
    [<sys/neutrino.h>], [SDL3/SDL_audio.h] and [SDL_poll.h]; none of them
    is in the source tree.  The constants the driver names are taken as
    parameters. *)
Class Headers : Type := {
  (* <errno.h> *)
  EOK : Z;
  ENOENT : Z;
  EIO : Z;
  EAGAIN : Z;
  EWOULDBLOCK : Z;
  EINVAL : Z;
  (* SDL3/SDL_audio.h *)
  SDL_AUDIO_U8 : Z;
  SDL_AUDIO_S8 : Z;
  SDL_AUDIO_S16LSB : Z;
  SDL_AUDIO_S16MSB : Z;
  SDL_AUDIO_S32LSB : Z;
  SDL_AUDIO_S32MSB : Z;
  SDL_AUDIO_F32LSB : Z;
  SDL_AUDIO_F32MSB : Z;
  SDL_AUDIO_S16 : Z;
  (* <sys/asoundlib.h> *)
  SND_PCM_SFMT_U8 : Z;
  SND_PCM_SFMT_S8 : Z;
  SND_PCM_SFMT_S16_LE : Z;
  SND_PCM_SFMT_S16_BE : Z;
  SND_PCM_SFMT_S32_LE : Z;
  SND_PCM_SFMT_S32_BE : Z;
  SND_PCM_SFMT_FLOAT_LE : Z;
  SND_PCM_SFMT_FLOAT_BE : Z;
  SND_PCM_CHANNEL_PLAYBACK : Z;
  SND_PCM_CHANNEL_CAPTURE : Z;
  SND_PCM_OPEN_PLAYBACK : Z;
  SND_PCM_OPEN_CAPTURE : Z;
  SND_PCM_MODE_BLOCK : Z;
  SND_PCM_START_DATA : Z;
  SND_PCM_STOP_STOP : Z;
  SND_PCM_STATUS_UNDERRUN : Z;
  SND_PCM_STATUS_READY : Z;
  (* SDL_poll.h *)
  SDL_IOR_READ : Z;
  SDL_IOR_WRITE : Z;
  (* <sys/neutrino.h> *)
  NTO_VERSION : Z
}.

(** One instance, used where a statement is evaluated on concrete
    numbers.  It has the shape of a little-endian QNX target: the
    generic formats are the codes of SDL3, [SDL_AUDIO_S16] is the
    little-endian 16-bit format, [EWOULDBLOCK] is [EAGAIN], and the
    flush of [QSA_CloseDevice] is compiled in. *)
Definition qnx_le : Headers := {|
  EOK := 0; ENOENT := 2; EIO := 5; EAGAIN := 11; EWOULDBLOCK := 11;
  EINVAL := 22;
  SDL_AUDIO_U8 := 0x0008; SDL_AUDIO_S8 := 0x8008;
  SDL_AUDIO_S16LSB := 0x8010; SDL_AUDIO_S16MSB := 0x9010;
  SDL_AUDIO_S32LSB := 0x8020; SDL_AUDIO_S32MSB := 0x9020;
  SDL_AUDIO_F32LSB := 0x8120; SDL_AUDIO_F32MSB := 0x9120;
  SDL_AUDIO_S16 := 0x8010;
  SND_PCM_SFMT_U8 := 0; SND_PCM_SFMT_S8 := 1;
  SND_PCM_SFMT_S16_LE := 4; SND_PCM_SFMT_S16_BE := 5;
  SND_PCM_SFMT_S32_LE := 12; SND_PCM_SFMT_S32_BE := 13;
  SND_PCM_SFMT_FLOAT_LE := 19; SND_PCM_SFMT_FLOAT_BE := 20;
  SND_PCM_CHANNEL_PLAYBACK := 1; SND_PCM_CHANNEL_CAPTURE := 0;
  SND_PCM_OPEN_PLAYBACK := 1; SND_PCM_OPEN_CAPTURE := 2;
  SND_PCM_MODE_BLOCK := 1; SND_PCM_START_DATA := 1;
  SND_PCM_STOP_STOP := 1;
  SND_PCM_STATUS_UNDERRUN := 4; SND_PCM_STATUS_READY := 1;
  SDL_IOR_READ := 1; SDL_IOR_WRITE := 2;
  NTO_VERSION := 700
|}.

(** ** Data *)

(** [SDL_AudioSpec]: sample format, channel count, sample rate. *)
Record SDL_AudioSpec : Type := {
  format : Z;
  channels : Z;
  freq : Z
}.

(** [struct SDL_PrivateAudioData], the fields the driver uses. *)
Record SDL_PrivateAudioData : Type := {
  audio_handle : Z;
  audio_fd : Z;
  timeout_on_wait : bool;
  pcm_buf : Z
}.

(** [SDL_AudioDevice], the fields the driver uses.  [hidden] is a pointer
    to a heap block: [None] is NULL.  The atomic [shutdown] is written by
    other threads and is part of the outside world, see [Native]. *)
Record SDL_AudioDevice : Type := {
  spec : SDL_AudioSpec;
  recording : bool;
  handle : Z;
  sample_frames : Z;
  buffer_size : Z;
  silence_value : Z;
  hidden : option SDL_PrivateAudioData
}.

(** [snd_pcm_channel_params_t], the fields [QSA_InitAudioParams] and
    [QSA_OpenDevice] set; every other field is zero. *)
Record snd_pcm_channel_params_t : Type := {
  cp_channel : Z;
  cp_mode : Z;
  cp_start_mode : Z;
  cp_stop_mode : Z;
  cp_format : Z;
  cp_interleave : Z;
  cp_rate : Z;
  cp_voices : Z;
  cp_frag_size : Z;
  cp_frags_min : Z;
  cp_frags_max : Z
}.

(** [snd_pcm_channel_setup_t], the fields the driver reads back. *)
Record snd_pcm_channel_setup_t : Type := {
  cs_format : Z;
  cs_channels : Z;
  cs_rate : Z;
  cs_frag_size : Z
}.

Definition DEFAULT_CPARAMS_RATE : Z := 44100.
Definition DEFAULT_CPARAMS_VOICES : Z := 1.
Definition DEFAULT_CPARAMS_FRAG_SIZE : Z := 4096.
Definition DEFAULT_CPARAMS_FRAGS_MIN : Z := 1.
Definition DEFAULT_CPARAMS_FRAGS_MAX : Z := 1.

(** ** The format table *)

Section FormatTable.
Context {H : Headers}.

(** The [switch] of [QSA_OpenDevice] (lines 228-240): the QSA format
    written to [cparams.format.format] for a candidate, [None] for
    [default: continue].  The labels are tried in the order written;
    with distinct labels (C admits no others) this is the [switch]. *)
Definition OpenDevice_CHECKFMT (test_format : Z) : option Z :=
  if test_format =? SDL_AUDIO_U8 then Some SND_PCM_SFMT_U8
  else if test_format =? SDL_AUDIO_S8 then Some SND_PCM_SFMT_S8
  else if test_format =? SDL_AUDIO_S16LSB then Some SND_PCM_SFMT_S16_LE
  else if test_format =? SDL_AUDIO_S16MSB then Some SND_PCM_SFMT_S16_BE
  else if test_format =? SDL_AUDIO_S32LSB then Some SND_PCM_SFMT_S32_LE
  else if test_format =? SDL_AUDIO_S32MSB then Some SND_PCM_SFMT_S32_BE
  else if test_format =? SDL_AUDIO_F32LSB then Some SND_PCM_SFMT_FLOAT_LE
  else if test_format =? SDL_AUDIO_F32MSB then Some SND_PCM_SFMT_FLOAT_BE
  else None.

(** [QnxFormatToSDLFormat] (lines 297-313). *)
Definition QnxFormatToSDLFormat (qnxfmt : Z) : Z :=
  if qnxfmt =? SND_PCM_SFMT_U8 then SDL_AUDIO_U8
  else if qnxfmt =? SND_PCM_SFMT_S8 then SDL_AUDIO_S8
  else if qnxfmt =? SND_PCM_SFMT_S16_LE then SDL_AUDIO_S16LSB
  else if qnxfmt =? SND_PCM_SFMT_S16_BE then SDL_AUDIO_S16MSB
  else if qnxfmt =? SND_PCM_SFMT_S32_LE then SDL_AUDIO_S32LSB
  else if qnxfmt =? SND_PCM_SFMT_S32_BE then SDL_AUDIO_S32MSB
  else if qnxfmt =? SND_PCM_SFMT_FLOAT_LE then SDL_AUDIO_F32LSB
  else if qnxfmt =? SND_PCM_SFMT_FLOAT_BE then SDL_AUDIO_F32MSB
  else SDL_AUDIO_S16.

(** The generic formats that are case labels in [QSA_OpenDevice]. *)
Definition sdl_table_formats : list Z :=
  [SDL_AUDIO_U8; SDL_AUDIO_S8; SDL_AUDIO_S16LSB; SDL_AUDIO_S16MSB;
   SDL_AUDIO_S32LSB; SDL_AUDIO_S32MSB; SDL_AUDIO_F32LSB; SDL_AUDIO_F32MSB].

(** The native formats that are case labels in [QnxFormatToSDLFormat]. *)
Definition qsa_table_formats : list Z :=
  [SND_PCM_SFMT_U8; SND_PCM_SFMT_S8; SND_PCM_SFMT_S16_LE;
   SND_PCM_SFMT_S16_BE; SND_PCM_SFMT_S32_LE; SND_PCM_SFMT_S32_BE;
   SND_PCM_SFMT_FLOAT_LE; SND_PCM_SFMT_FLOAT_BE].

(** What a C compiler demands of the two [switch] statements: no two
    case labels of one [switch] have the same value. *)
Definition case_labels_distinct : Prop :=
  NoDup sdl_table_formats /\ NoDup qsa_table_formats.

End FormatTable.

(** ** The outside world *)

(** One call that leaves the driver, with its arguments and its answer. *)
Inductive event : Type :=
| SDL_GetAtomicInt_shutdown (value : bool)
| SDL_IOReady (fd flags timeoutMS result : Z)
| SDL_LogError (msg : string)
| SDL_SetError (msg : string) (status : option Z)
| SDL_Delay (ms : Z)
| snd_pcm_plugin_write (pcm buffer size bw errno_after : Z)
| snd_pcm_plugin_status (pcm channel ret status : Z)
| snd_pcm_plugin_prepare (pcm channel ret : Z)
| snd_pcm_plugin_flush (pcm channel : Z)
| snd_pcm_close (pcm ret : Z)
| SDL_free_pcm_buf (ptr : Z)
| SDL_free_hidden
| SDL_calloc_hidden (ok : bool)
| snd_pcm_open (card deviceno mode ret pcm : Z)
| SDL_ClosestAudioFormats (fmt : Z) (closefmts : list Z)
| snd_pcm_plugin_params (pcm : Z) (cparams : snd_pcm_channel_params_t) (ret : Z)
| snd_pcm_plugin_setup (pcm channel ret : Z) (csetup : snd_pcm_channel_setup_t)
| SDL_malloc (size ptr : Z)
| SDL_memset (ptr value size : Z)
| snd_pcm_file_descriptor (pcm channel ret : Z)
| snd_card_get_longname (card ret : Z) (name : string)
| SDL_AddAudioDevice (is_recording : bool) (name : string) (deviceno : Z)
    (pspec : option SDL_AudioSpec) (sdlhandle : Z).

(** What the outside world answers.  The first argument of every field is
    the time of the call: the number of events before it.
    - [shutdown_at]: the value of the atomic [device->shutdown].
    - [write_at]: bytes written (or a negative value) and the value of
      [errno] after the call.
    - [status_at]: return value and [cstatus.status].
    - [open_at]: return value and the handle stored through the first
      argument.
    - [closest_at]: the array [SDL_ClosestAudioFormats] returns, without
      its terminating 0.
    - [setup_at]: return value and the structure filled in.
    - [updated_format]: [SDL_UpdatedAudioDeviceFormat], which computes
      [buffer_size] and [silence_value] from the device; given the
      device, it returns these two.
    - [longname_at]: return value and the name stored. *)
Record Native : Type := {
  shutdown_at : nat -> bool;
  ioready_at : nat -> Z -> Z -> Z -> Z;
  write_at : nat -> Z -> Z -> Z -> Z * Z;
  status_at : nat -> Z -> Z -> Z * Z;
  prepare_at : nat -> Z -> Z -> Z;
  close_at : nat -> Z -> Z;
  calloc_at : nat -> bool;
  open_at : nat -> Z -> Z -> Z -> Z * Z;
  closest_at : nat -> Z -> list Z;
  params_at : nat -> Z -> snd_pcm_channel_params_t -> Z;
  setup_at : nat -> Z -> Z -> Z * snd_pcm_channel_setup_t;
  updated_format : SDL_AudioDevice -> Z * Z;
  malloc_at : nat -> Z -> Z;
  file_descriptor_at : nat -> Z -> Z -> Z;
  longname_at : nat -> Z -> Z * string
}.

(** The trace so far, newest event first. *)
Definition trace : Type := list event.

(** A computation of the driver: it extends the trace. *)
Definition M (A : Type) : Type := trace -> A * trace.

Definition ret {A : Type} (a : A) : M A := fun tr => (a, tr).

Definition bind {A B : Type} (m : M A) (k : A -> M B) : M B :=
  fun tr => let (a, tr') := m tr in k a tr'.

Notation "x <- m ;; k" := (bind m (fun x => k))
  (at level 61, m at next level, right associativity).
Notation "m ;;; k" := (bind m (fun _ => k))
  (at level 61, right associativity).

(** A call whose answer the world chooses. *)
Definition call {A : Type} (answer : nat -> A) (ev : A -> event) : M A :=
  fun tr => let a := answer (List.length tr) in (a, ev a :: tr).

(** A call without an answer the driver looks at. *)
Definition emit (ev : event) : M unit := fun tr => (tt, ev :: tr).

(** The events of a computation started on the empty trace, oldest
    first. *)
Definition events_of {A : Type} (m : M A) : list event := rev (snd (m [])).

(** ** QSA_SetError, QSA_InitAudioParams, QSA_WaitDevice *)

Section Driver.
Context {H : Headers}.
Variable W : Native.

(** [QSA_SetError] (lines 55-58).  [SDL_SetError] always returns false;
    the text of [snd_strerror(status)] is left to the event's [status]. *)
Definition QSA_SetError (fn : string) (status : Z) : M bool :=
  emit (SDL_SetError ("QSA: " ++ fn ++ "() failed: %s")%string
          (Some status)) ;;;
  ret false.

(** [QSA_InitAudioParams] (lines 72-86). *)
Definition QSA_InitAudioParams : snd_pcm_channel_params_t := {|
  cp_channel := SND_PCM_CHANNEL_PLAYBACK;
  cp_mode := SND_PCM_MODE_BLOCK;
  cp_start_mode := SND_PCM_START_DATA;
  cp_stop_mode := SND_PCM_STOP_STOP;
  cp_format := SND_PCM_SFMT_S16_LE;
  cp_interleave := 1;
  cp_rate := DEFAULT_CPARAMS_RATE;
  cp_voices := DEFAULT_CPARAMS_VOICES;
  cp_frag_size := DEFAULT_CPARAMS_FRAG_SIZE;
  cp_frags_min := DEFAULT_CPARAMS_FRAGS_MIN;
  cp_frags_max := DEFAULT_CPARAMS_FRAGS_MAX
|}.

Definition set_timeout_on_wait (device : SDL_AudioDevice)
    (h : SDL_PrivateAudioData) (b : bool) : SDL_AudioDevice :=
  {| spec := spec device; recording := recording device;
     handle := handle device; sample_frames := sample_frames device;
     buffer_size := buffer_size device;
     silence_value := silence_value device;
     hidden := Some {| audio_handle := audio_handle h;
                       audio_fd := audio_fd h;
                       timeout_on_wait := b;
                       pcm_buf := pcm_buf h |} |}.

(** [QSA_WaitDevice] (lines 89-111).  The function dereferences
    [device->hidden] at once: with a NULL [hidden] it has no defined
    behaviour, which is [None]. *)
Definition QSA_WaitDevice (device : SDL_AudioDevice)
    : M (option (bool * SDL_AudioDevice)) :=
  match hidden device with
  | None => ret None
  | Some h =>
      let flags := if recording device then SDL_IOR_READ else SDL_IOR_WRITE in
      result <- call (fun t => ioready_at W t (audio_fd h) flags (2 * 1000))
                     (SDL_IOReady (audio_fd h) flags (2 * 1000)) ;;
      if result =? -1 then
        emit (SDL_LogError "QSA: SDL_IOReady() failed: %s") ;;;
        ret (Some (false, device))
      else if result =? 0 then
        ret (Some (true, set_timeout_on_wait device h true))
      else
        ret (Some (true, set_timeout_on_wait device h false))
  end.

(** ** QSA_PlayDevice *)

(** How control leaves the block of lines 123-164. *)
Inductive control : Type :=
| Return (r : bool)
| Continue (buffer towrite : Z)
| EndOfBlock (buffer towrite : Z).

Definition channel_of (device : SDL_AudioDevice) : Z :=
  if recording device then SND_PCM_CHANNEL_CAPTURE
  else SND_PCM_CHANNEL_PLAYBACK.

(** Lines 123-164 of [QSA_PlayDevice]: one native write and the
    classification of its outcome.  [buffer] is the address the write
    reads from, [towrite] the number of bytes asked for. *)
Definition PlayDevice_block (device : SDL_AudioDevice)
    (h : SDL_PrivateAudioData) (buffer towrite : Z) : M control :=
  wr <- call (fun t => write_at W t (audio_handle h) buffer towrite)
             (fun a => snd_pcm_plugin_write (audio_handle h) buffer towrite
                         (fst a) (snd a)) ;;
  let bw := fst wr in
  let errno := snd wr in
  if negb (bw =? towrite) then
    if ((errno =? EAGAIN) && (bw =? 0)) && timeout_on_wait h then
      ret (Return true)
    else if (errno =? EAGAIN) || (errno =? EWOULDBLOCK) then
      emit (SDL_Delay 1) ;;;
      ret (Continue (buffer + bw * channels (spec device)) (towrite - bw))
    else if (errno =? EINVAL) || (errno =? EIO) then
      st <- call (fun t => status_at W t (audio_handle h) (channel_of device))
                 (fun a => snd_pcm_plugin_status (audio_handle h)
                             (channel_of device) (fst a) (snd a)) ;;
      let status := fst st in
      let cstatus := snd st in
      if status <? 0 then
        QSA_SetError "snd_pcm_plugin_status" status ;;;
        ret (Return false)
      else if (cstatus =? SND_PCM_STATUS_UNDERRUN)
              || (cstatus =? SND_PCM_STATUS_READY) then
        status <- call (fun t => prepare_at W t (audio_handle h)
                                   (channel_of device))
                       (snd_pcm_plugin_prepare (audio_handle h)
                          (channel_of device)) ;;
        if status <? 0 then
          QSA_SetError "snd_pcm_plugin_prepare" status ;;;
          ret (Return false)
        else ret (Continue buffer towrite)
      else ret (Continue buffer towrite)
    else ret (Return false)
  else
    ret (EndOfBlock (buffer + bw * channels (spec device)) (towrite - bw)).

(** Line 122,
    [while ((towrite > 0) && !SDL_GetAtomicInt(&device->shutdown));]
    The statement of this loop is the empty statement that the [;] at
    the end of the line makes.  [true]: the condition was found false
    and the loop left; [false]: the loop was still running after [fuel]
    tests of its condition. *)
Fixpoint PlayDevice_while (fuel : nat) (towrite : Z) : M bool :=
  match fuel with
  | O => ret false
  | S fuel' =>
      if 0 <? towrite then
        s <- call (shutdown_at W) SDL_GetAtomicInt_shutdown ;;
        if negb s then PlayDevice_while fuel' towrite else ret true
      else ret true
  end.

(** [QSA_PlayDevice] (lines 113-169) as it is written: the [while] of
    line 122 with its empty statement, then the block of lines 123-164,
    entered once, then [return (towrite == 0)].  As it stands the text
    is not C: the [continue] statements of the block have no loop around
    them, and the brace of line 165 has no opening brace of its own.  A
    [continue] is read as the end of the block, the brace as closing the
    block.  [None]: the [while] was still running when the fuel ran
    out. *)
Definition QSA_PlayDevice (fuel : nat) (device : SDL_AudioDevice)
    (buffer buflen : Z) : M (option bool) :=
  s <- call (shutdown_at W) SDL_GetAtomicInt_shutdown ;;
  if s then ret (Some true)
  else
    match hidden device with
    | None => ret (Some true)
    | Some h =>
        let towrite := buflen in
        left_loop <- PlayDevice_while fuel towrite ;;
        if left_loop then
          c <- PlayDevice_block device h buffer towrite ;;
          match c with
          | Return r => ret (Some r)
          | Continue _ towrite' => ret (Some (towrite' =? 0))
          | EndOfBlock _ towrite' => ret (Some (towrite' =? 0))
          end
        else ret None
    end.

(** The retry loop the way the spec words it (4.3: "While bytes remain
    and shutdown has not been requested: attempt a native write of the
    remaining bytes"; 9: "conditionally iterating"): the block of lines
    123-164 is the statement of the [while], [continue] and the end of
    the block go back to its condition.  This is [QSA_PlayDevice] without
    the [;] that ends line 122.  [None]: out of fuel. *)
Fixpoint play_retry_loop (fuel : nat) (device : SDL_AudioDevice)
    (h : SDL_PrivateAudioData) (buffer towrite : Z) : M (option bool) :=
  match fuel with
  | O => ret None
  | S fuel' =>
      if 0 <? towrite then
        s <- call (shutdown_at W) SDL_GetAtomicInt_shutdown ;;
        if negb s then
          c <- PlayDevice_block device h buffer towrite ;;
          match c with
          | Return r => ret (Some r)
          | Continue buffer' towrite' =>
              play_retry_loop fuel' device h buffer' towrite'
          | EndOfBlock buffer' towrite' =>
              play_retry_loop fuel' device h buffer' towrite'
          end
        else ret (Some (towrite =? 0))
      else ret (Some (towrite =? 0))
  end.

(** [play] of the spec: the first line of [QSA_PlayDevice], then the
    retry loop as the spec words it. *)
Definition play_spec (fuel : nat) (device : SDL_AudioDevice)
    (buffer buflen : Z) : M (option bool) :=
  s <- call (shutdown_at W) SDL_GetAtomicInt_shutdown ;;
  if s then ret (Some true)
  else
    match hidden device with
    | None => ret (Some true)
    | Some h => play_retry_loop fuel device h buffer buflen
    end.


(** ** QSA_CloseDevice *)

Definition set_hidden (device : SDL_AudioDevice)
    (h : option SDL_PrivateAudioData) : SDL_AudioDevice :=
  {| spec := spec device; recording := recording device;
     handle := handle device; sample_frames := sample_frames device;
     buffer_size := buffer_size device;
     silence_value := silence_value device;
     hidden := h |}.

(** [QSA_CloseDevice] (lines 176-191).  The flush is compiled in for
    [_NTO_VERSION < 710] only. *)
Definition QSA_CloseDevice (device : SDL_AudioDevice) : M SDL_AudioDevice :=
  match hidden device with
  | Some h =>
      (if negb (audio_handle h =? 0) then
         (if NTO_VERSION <? 710 then
            emit (snd_pcm_plugin_flush (audio_handle h) (channel_of device))
          else ret tt) ;;;
         call (fun t => close_at W t (audio_handle h))
              (snd_pcm_close (audio_handle h)) ;;;
         ret tt
       else ret tt) ;;;
      emit (SDL_free_pcm_buf (pcm_buf h)) ;;;
      emit SDL_free_hidden ;;;
      ret (set_hidden device None)
  | None => ret device
  end.

(** ** QSA_OpenDevice *)

(** The loop of lines 226-242 over the array [closefmts], given without
    its terminating 0: the value of [test_format] after the loop ([0]:
    the terminator was reached) and the value of [cparams.format.format]
    (unchanged unless a [case] assigned it). *)
Fixpoint OpenDevice_closest (closefmts : list Z) (cparams_format : Z)
    : Z * Z :=
  match closefmts with
  | [] => (0, cparams_format)
  | test_format :: rest =>
      if test_format =? 0 then (0, cparams_format)
      else
        match OpenDevice_CHECKFMT test_format with
        | Some qsafmt => (test_format, qsafmt)
        | None => OpenDevice_closest rest cparams_format
        end
  end.

Definition set_format (s : SDL_AudioSpec) (f : Z) : SDL_AudioSpec :=
  {| format := f; channels := channels s; freq := freq s |}.

Definition set_cparams_format (c : snd_pcm_channel_params_t)
    (fmt voices rate : Z) : snd_pcm_channel_params_t :=
  {| cp_channel := cp_channel c; cp_mode := cp_mode c;
     cp_start_mode := cp_start_mode c; cp_stop_mode := cp_stop_mode c;
     cp_format := fmt; cp_interleave := cp_interleave c;
     cp_rate := rate; cp_voices := voices;
     cp_frag_size := cp_frag_size c; cp_frags_min := cp_frags_min c;
     cp_frags_max := cp_frags_max c |}.

(** The block [SDL_calloc] returns: all fields zero. *)
Definition zeroed_hidden : SDL_PrivateAudioData :=
  {| audio_handle := 0; audio_fd := 0; timeout_on_wait := false;
     pcm_buf := 0 |}.

(** [QSA_OpenDevice] (lines 193-295): the return value and the device as
    the call leaves it.  [SDL_assert] is not compiled into release
    builds and is left out. *)
Definition QSA_OpenDevice (device : SDL_AudioDevice)
    : M (bool * SDL_AudioDevice) :=
  if recording device then
    emit (SDL_SetError "SDL recording support isn't available on QNX atm"
            None) ;;;
    ret (false, device)
  else
    let sdlhandle := handle device mod 2 ^ 32 in
    let cardno := Z.land sdlhandle 0xFFFF in
    let deviceno := Z.land (Z.shiftr sdlhandle 16) 0xFFFF in
    let is_recording := recording device in
    ok <- call (calloc_at W) SDL_calloc_hidden ;;
    if negb ok then ret (false, set_hidden device None)
    else
      let cparams := QSA_InitAudioParams in
      let mode := if is_recording then SND_PCM_OPEN_CAPTURE
                  else SND_PCM_OPEN_PLAYBACK in
      op <- call (fun t => open_at W t cardno deviceno mode)
                 (fun a => snd_pcm_open cardno deviceno mode (fst a) (snd a)) ;;
      if fst op <? 0 then
        QSA_SetError "snd_pcm_open" (fst op) ;;;
        ret (false, set_hidden device (Some zeroed_hidden))
      else
        let pcm := snd op in
        let h1 := {| audio_handle := pcm; audio_fd := 0;
                     timeout_on_wait := false; pcm_buf := 0 |} in
        closefmts <- call (fun t => closest_at W t (format (spec device)))
                          (SDL_ClosestAudioFormats (format (spec device))) ;;
        let found := OpenDevice_closest closefmts (cp_format cparams) in
        let test_format := fst found in
        if test_format =? 0 then
          emit (SDL_SetError "QSA: Couldn't find any hardware audio formats"
                  None) ;;;
          ret (false, set_hidden device (Some h1))
        else
          let spec1 := set_format (spec device) test_format in
          let cparams1 := set_cparams_format cparams (snd found)
                            (channels spec1) (freq spec1) in
          let dev1 := {| spec := spec1; recording := recording device;
                         handle := handle device;
                         sample_frames := sample_frames device;
                         buffer_size := buffer_size device;
                         silence_value := silence_value device;
                         hidden := Some h1 |} in
          status <- call (fun t => params_at W t pcm cparams1)
                         (snd_pcm_plugin_params pcm cparams1) ;;
          if status <? 0 then
            QSA_SetError "snd_pcm_plugin_params" status ;;;
            ret (false, dev1)
          else
            let channel := if is_recording then SND_PCM_CHANNEL_CAPTURE
                           else SND_PCM_CHANNEL_PLAYBACK in
            su <- call (fun t => setup_at W t pcm channel)
                       (fun a => snd_pcm_plugin_setup pcm channel
                                   (fst a) (snd a)) ;;
            if fst su <? 0 then
              emit (SDL_SetError "QSA: Unable to setup channel" None) ;;;
              ret (false, dev1)
            else
              let dev2 := {| spec := spec1; recording := recording device;
                             handle := handle device;
                             sample_frames := cs_frag_size (snd su);
                             buffer_size := buffer_size device;
                             silence_value := silence_value device;
                             hidden := Some h1 |} in
              let dev3 := {| spec := spec1; recording := recording device;
                             handle := handle device;
                             sample_frames := cs_frag_size (snd su);
                             buffer_size := fst (updated_format W dev2);
                             silence_value := snd (updated_format W dev2);
                             hidden := Some h1 |} in
              buf <- call (fun t => malloc_at W t (buffer_size dev3))
                          (SDL_malloc (buffer_size dev3)) ;;
              if buf =? 0 then ret (false, dev3)
              else
                emit (SDL_memset buf (silence_value dev3)
                        (buffer_size dev3)) ;;;
                fd <- call (fun t => file_descriptor_at W t pcm channel)
                           (snd_pcm_file_descriptor pcm channel) ;;
                let h2 := {| audio_handle := pcm; audio_fd := fd;
                             timeout_on_wait := false; pcm_buf := buf |} in
                let dev4 := set_hidden dev3 (Some h2) in
                if fd <? 0 then
                  QSA_SetError "snd_pcm_file_descriptor" fd ;;;
                  ret (false, dev4)
                else
                  status <- call (fun t => prepare_at W t pcm channel)
                                 (snd_pcm_plugin_prepare pcm channel) ;;
                  if status <? 0 then
                    QSA_SetError "snd_pcm_plugin_prepare" status ;;;
                    ret (false, dev4)
                  else ret (true, dev4).

(** ** QSA_DetectDevices *)

(** The loop over the cards (lines 338-398).  The card count query
    before it (lines 319-335, where the count is stored through the
    undeclared name [alloc_num_cards]) and the search for the default
    devices after it (lines 402-421, where the undeclared name [card] is
    packed into the handle) are not part of the embedding; the loop is
    given the cards it walks. *)

(** [device] is neither a parameter nor a local of [QSA_DetectDevices]:
    line 372 names [device->hidden->audio_handle], a handle that the
    function has not opened.  Its value is a parameter here. *)
Variable device_hidden_audio_handle : Z.

(** How one round of the loop over [deviceno] ends. *)
Inductive round_end : Type :=
| Break
| NextRound.

(** One round of the loop over [deviceno] (lines 341-396).  The event
    [SDL_AddAudioDevice] carries [name] and [deviceno], from which
    [SDL_snprintf] builds [fullname]. *)
Definition DetectDevices_round (card deviceno : Z) : M round_end :=
  ln <- call (fun t => longname_at W t card)
             (fun a => snd_card_get_longname card (fst a) (snd a)) ;;
  if fst ln =? EOK then
    let name := snd ln in
    let is_recording := false in
    op <- call (fun t => open_at W t card deviceno SND_PCM_OPEN_PLAYBACK)
               (fun a => snd_pcm_open card deviceno SND_PCM_OPEN_PLAYBACK
                           (fst a) (snd a)) ;;
    let status := fst op in
    let pcm := snd op in
    if status =? EOK then
      let channel := if is_recording then SND_PCM_CHANNEL_CAPTURE
                     else SND_PCM_CHANNEL_PLAYBACK in
      su <- call (fun t => setup_at W t device_hidden_audio_handle channel)
                 (fun a => snd_pcm_plugin_setup device_hidden_audio_handle
                             channel (fst a) (snd a)) ;;
      let pspec :=
        if fst su <? 0 then None
        else Some {| format := QnxFormatToSDLFormat (cs_format (snd su));
                     channels := cs_channels (snd su);
                     freq := cs_rate (snd su) |} in
      status <- call (fun t => close_at W t pcm) (snd_pcm_close pcm) ;;
      if status =? EOK then
        let sdlhandle :=
          Z.lor (card mod 2 ^ 32)
                (Z.shiftl (deviceno mod 2 ^ 32) 16 mod 2 ^ 32) in
        emit (SDL_AddAudioDevice is_recording name deviceno pspec
                sdlhandle) ;;;
        ret NextRound
      else ret NextRound
    else if status =? - ENOENT then ret Break
    else ret NextRound
  else ret Break.

(** The loop [for (uint32_t deviceno = 0; ; deviceno++)] of one card,
    from [deviceno] on.  [true]: left by [break]; [false]: still running
    after [fuel] rounds. *)
Fixpoint DetectDevices_card (fuel : nat) (card deviceno : Z) : M bool :=
  match fuel with
  | O => ret false
  | S fuel' =>
      e <- DetectDevices_round card deviceno ;;
      match e with
      | Break => ret true
      | NextRound =>
          DetectDevices_card fuel' card ((deviceno + 1) mod 2 ^ 32)
      end
  end.

(** The loop over [cards[0 .. num_cards-1]]; [fuel] bounds the rounds
    of each card. *)
Fixpoint DetectDevices_cards (fuel : nat) (cards : list Z) : M bool :=
  match cards with
  | [] => ret true
  | card :: rest =>
      done <- DetectDevices_card fuel card 0 ;;
      if done then DetectDevices_cards fuel rest else ret false
  end.

End Driver.

(** ** Predicates on traces and on candidate lists *)

Definition is_write (e : event) : bool :=
  match e with
  | snd_pcm_plugin_write _ _ _ _ _ => true
  | _ => false
  end.

Definition is_shutdown_read (e : event) : bool :=
  match e with
  | SDL_GetAtomicInt_shutdown _ => true
  | _ => false
  end.

Definition is_free_pcm_buf (e : event) : bool :=
  match e with
  | SDL_free_pcm_buf _ => true
  | _ => false
  end.

Definition is_close (e : event) : bool :=
  match e with
  | snd_pcm_close _ _ => true
  | _ => false
  end.

Definition count_events (p : event -> bool) (tr : trace) : nat :=
  List.length (filter p tr).

(** On a trace (newest first): every native write asks for at least one
    byte and is the next call after a read of the shutdown signal that
    found it unset. *)
Fixpoint writes_guarded (tr : trace) : bool :=
  match tr with
  | [] => true
  | snd_pcm_plugin_write _ _ size _ _ :: rest =>
      (0 <? size)
      && match rest with
         | SDL_GetAtomicInt_shutdown false :: _ => true
         | _ => false
         end
      && writes_guarded rest
  | _ :: rest => writes_guarded rest
  end.

(** The candidates of an array of closest formats: its entries before
    the first 0. *)
Fixpoint candidates (closefmts : list Z) : list Z :=
  match closefmts with
  | [] => []
  | f :: rest => if f =? 0 then [] else f :: candidates rest
  end.

(** What [QSA_PlayDevice] as written returns once control has left the
    block. *)
Definition after_block (c : control) : bool :=
  match c with
  | Return r => r
  | Continue _ towrite => towrite =? 0
  | EndOfBlock _ towrite => towrite =? 0
  end.

(** ** Concrete worlds and devices *)

(** The inputs on which statements are evaluated.  All use the constants
    of [qnx_le]. *)

Definition stereo_setup : snd_pcm_channel_setup_t :=
  {| cs_format := 4; cs_channels := 2; cs_rate := 48000;
     cs_frag_size := 4096 |}.

(** A world with the given answers of the shutdown signal and of the
    write, status and prepare calls; every other call succeeds. *)
Definition play_world (shutdown : nat -> bool)
    (write : nat -> Z -> Z * Z) (status : Z * Z) (prepare : Z) : Native :=
  {| shutdown_at := shutdown;
     ioready_at := fun _ _ _ _ => 1;
     write_at := fun t _ _ size => write t size;
     status_at := fun _ _ _ => status;
     prepare_at := fun _ _ _ => prepare;
     close_at := fun _ _ => 0;
     calloc_at := fun _ => true;
     open_at := fun _ _ _ _ => (0, 7);
     closest_at := fun _ fmt => [fmt];
     params_at := fun _ _ _ => 0;
     setup_at := fun _ _ _ => (0, stereo_setup);
     updated_format := fun d => (sample_frames d * 4, 0);
     malloc_at := fun _ _ => 1000;
     file_descriptor_at := fun _ _ _ => 3;
     longname_at := fun _ _ => (0, "card") |}.

(** An open block whose handle is 7 and whose buffer is at 1000. *)
Definition open_hidden (flag : bool) : SDL_PrivateAudioData :=
  {| audio_handle := 7; audio_fd := 3; timeout_on_wait := flag;
     pcm_buf := 1000 |}.

(** An open stereo playback device. *)
Definition stereo_device (flag : bool) : SDL_AudioDevice :=
  {| spec := {| format := 0x8010; channels := 2; freq := 48000 |};
     recording := false; handle := 0; sample_frames := 4096;
     buffer_size := 16384; silence_value := 0;
     hidden := Some (open_hidden flag) |}.

(** The shutdown signal is set from the time [n] on. *)
Definition shutdown_from (n : nat) : nat -> bool := fun t => Nat.leb n t.

(** Every write transfers all it is asked for. *)
Definition write_all : nat -> Z -> Z * Z := fun _ size => (size, 0).

(** Every write transfers nothing and leaves [errno] at the value [e]. *)
Definition write_none (e : Z) : nat -> Z -> Z * Z := fun _ _ => (0, e).

(** The writes before the time [n] fail with [errno] at [e]; the later
    ones transfer all they are asked for. *)
Definition write_fails_until (n : nat) (e : Z) : nat -> Z -> Z * Z :=
  fun t size => if Nat.ltb t n then (-1, e) else (size, 0).

(** The writes before the time [n] transfer [k] bytes and leave [errno]
    at [e]; the later ones transfer all they are asked for. *)
Definition write_short_until (n : nat) (k e : Z) : nat -> Z -> Z * Z :=
  fun t size => if Nat.ltb t n then (k, e) else (size, 0).

Definition is_params (e : event) : bool :=
  match e with
  | snd_pcm_plugin_params _ _ _ => true
  | _ => false
  end.

(** A world for [QSA_OpenDevice] in which [SDL_ClosestAudioFormats]
    answers [closefmts] and [snd_pcm_open] answers [opened]; every other
    call succeeds. *)
Definition open_world (closefmts : list Z) (opened : Z * Z) : Native :=
  {| shutdown_at := fun _ => false;
     ioready_at := fun _ _ _ _ => 1;
     write_at := fun _ _ _ size => (size, 0);
     status_at := fun _ _ _ => (0, 0);
     prepare_at := fun _ _ _ => 0;
     close_at := fun _ _ => 0;
     calloc_at := fun _ => true;
     open_at := fun _ _ _ _ => opened;
     closest_at := fun _ _ => closefmts;
     params_at := fun _ _ _ => 0;
     setup_at := fun _ _ _ => (0, stereo_setup);
     updated_format := fun d => (sample_frames d * 4, 0);
     malloc_at := fun _ _ => 1000;
     file_descriptor_at := fun _ _ _ => 3;
     longname_at := fun _ _ => (0, "card") |}.

(** A device that has not been opened. *)
Definition closed_device (fmt : Z) : SDL_AudioDevice :=
  {| spec := {| format := fmt; channels := 2; freq := 48000 |};
     recording := false; handle := 0x10000; sample_frames := 0;
     buffer_size := 0; silence_value := 0; hidden := None |}.

(** A world for [QSA_DetectDevices]: every card has one device, number
    0, whose handle is 7 once opened; the setup of the handle 7 can be
    read, the setup of any other handle cannot. *)
Definition detect_world : Native :=
  {| shutdown_at := fun _ => false;
     ioready_at := fun _ _ _ _ => 1;
     write_at := fun _ _ _ size => (size, 0);
     status_at := fun _ _ _ => (0, 0);
     prepare_at := fun _ _ _ => 0;
     close_at := fun _ _ => 0;
     calloc_at := fun _ => true;
     open_at := fun _ _ deviceno _ =>
                  if deviceno =? 0 then (0, 7) else (-2, 0);
     closest_at := fun _ fmt => [fmt];
     params_at := fun _ _ _ => 0;
     setup_at := fun _ pcm _ =>
                   if pcm =? 7 then (0, stereo_setup)
                   else (-1, {| cs_format := 0; cs_channels := 0;
                                cs_rate := 0; cs_frag_size := 0 |});
     updated_format := fun d => (sample_frames d * 4, 0);
     malloc_at := fun _ _ => 1000;
     file_descriptor_at := fun _ _ _ => 3;
     longname_at := fun _ _ => (0, "card") |}.

(** The event is not a setup query, or it is one on the handle [pcm]. *)
Definition setup_on (pcm : Z) (e : event) : bool :=
  match e with
  | snd_pcm_plugin_setup p _ _ _ => p =? pcm
  | _ => true
  end.

(** A world for the enumeration in which every name query answers
    [named] and [snd_pcm_open] answers [opened] of the device number;
    every other call succeeds. *)
Definition probe_world (named : Z * string) (opened : Z -> Z * Z) : Native :=
  {| shutdown_at := fun _ => false;
     ioready_at := fun _ _ _ _ => 1;
     write_at := fun _ _ _ size => (size, 0);
     status_at := fun _ _ _ => (0, 0);
     prepare_at := fun _ _ _ => 0;
     close_at := fun _ _ => 0;
     calloc_at := fun _ => true;
     open_at := fun _ _ deviceno _ => opened deviceno;
     closest_at := fun _ fmt => [fmt];
     params_at := fun _ _ _ => 0;
     setup_at := fun _ _ _ => (0, stereo_setup);
     updated_format := fun d => (sample_frames d * 4, 0);
     malloc_at := fun _ _ => 1000;
     file_descriptor_at := fun _ _ _ => 3;
     longname_at := fun _ _ => named |}.


(** * Properties *)

(** Inequalities between the members of a duplicate-free list. *)
Ltac nodup_facts :=
  repeat match goal with
  | Hnd : NoDup (_ :: _) |- _ =>
      let a := fresh "Hnotin" in
      let b := fresh "Hnd" in
      apply NoDup_cons_iff in Hnd; destruct Hnd as [a b]; simpl in a
  | Hnd : NoDup [] |- _ => clear Hnd
  end;
  repeat match goal with
  | Hn : ~ (_ \/ _) |- _ =>
      let a := fresh "Hne" in
      let b := fresh "Hnotin" in
      apply Decidable.not_or in Hn; destruct Hn as [a b]
  | Hn : ~ False |- _ => clear Hn
  end.

(** Decide every comparison of a [switch] whose labels are distinct. *)
Ltac switch_cases :=
  repeat match goal with
  | |- context [Z.eqb ?a ?b] =>
      destruct (Z.eqb_spec a b);
      [ try (exfalso; congruence) | try congruence ]
  end.

Section FormatTableFacts.
Context {H : Headers}.

Lemma CHECKFMT_some_in_table (g q : Z) :
  OpenDevice_CHECKFMT g = Some q -> In g sdl_table_formats /\ In q qsa_table_formats.
Proof.
  unfold OpenDevice_CHECKFMT, sdl_table_formats, qsa_table_formats.
  repeat match goal with
  | |- context [Z.eqb ?a ?b] => destruct (Z.eqb_spec a b)
  end; intros Heq; inversion Heq; subst; simpl; tauto.
Qed.

Lemma CHECKFMT_none_not_in_table (g : Z) :
  OpenDevice_CHECKFMT g = None <-> ~ In g sdl_table_formats.
Proof.
  unfold OpenDevice_CHECKFMT, sdl_table_formats.
  repeat match goal with
  | |- context [Z.eqb ?a ?b] => destruct (Z.eqb_spec a b)
  end; simpl; split; intros; try discriminate; try tauto; intuition congruence.
Qed.

Lemma QnxFormat_unlisted (q : Z) :
  ~ In q qsa_table_formats -> QnxFormatToSDLFormat q = SDL_AUDIO_S16.
Proof.
  unfold QnxFormatToSDLFormat, qsa_table_formats. simpl. intros Hq.
  repeat match goal with
  | |- context [Z.eqb ?a ?b] =>
      destruct (Z.eqb_spec a b); [exfalso; apply Hq; subst; tauto | ]
  end.
  reflexivity.
Qed.

(** C3.  The two [switch] statements are inverse to each other on the
    eight table entries: mapping a listed native format to its generic
    format with [QnxFormatToSDLFormat] and back with the [switch] of
    [QSA_OpenDevice] yields the native format again, and mapping a listed
    generic format to its native format and back yields the generic
    format again; each side of the table has eight distinct entries. *)
Theorem format_table_bijection :
  case_labels_distinct ->
  (forall f, In f qsa_table_formats ->
     In (QnxFormatToSDLFormat f) sdl_table_formats /\
     OpenDevice_CHECKFMT (QnxFormatToSDLFormat f) = Some f) /\
  (forall g, In g sdl_table_formats ->
     exists f, In f qsa_table_formats /\
       OpenDevice_CHECKFMT g = Some f /\ QnxFormatToSDLFormat f = g) /\
  List.length sdl_table_formats = 8%nat /\ List.length qsa_table_formats = 8%nat.
Proof.
  intros [Hs Hq].
  unfold sdl_table_formats, qsa_table_formats in *.
  nodup_facts.
  split; [ | split; [ | split; reflexivity ] ].
  - intros f Hf. simpl in Hf.
    repeat (destruct Hf as [Hf | Hf]; [subst f | ]); try contradiction;
      unfold QnxFormatToSDLFormat; switch_cases;
      (split; [simpl; tauto | ]);
      unfold OpenDevice_CHECKFMT; switch_cases; reflexivity.
  - intros g Hg. simpl in Hg.
    repeat (destruct Hg as [Hg | Hg]; [subst g | ]); try contradiction;
      unfold OpenDevice_CHECKFMT; switch_cases;
      (eexists; split; [ | split; [reflexivity | ] ]);
      try (simpl; tauto);
      unfold QnxFormatToSDLFormat; switch_cases; reflexivity.
Qed.

End FormatTableFacts.

Lemma qnx_le_case_labels_distinct : @case_labels_distinct qnx_le.
Proof.
  split; vm_compute; repeat constructor; simpl; intuition discriminate.
Qed.

Lemma format_table_bijection_witness :
  @case_labels_distinct qnx_le /\
  (forall f, In f (@qsa_table_formats qnx_le) ->
     In (@QnxFormatToSDLFormat qnx_le f) (@sdl_table_formats qnx_le) /\
     @OpenDevice_CHECKFMT qnx_le (@QnxFormatToSDLFormat qnx_le f) = Some f) /\
  (forall g, In g (@sdl_table_formats qnx_le) ->
     exists f, In f (@qsa_table_formats qnx_le) /\
       @OpenDevice_CHECKFMT qnx_le g = Some f /\
       @QnxFormatToSDLFormat qnx_le f = g).
Proof.
  split.
  - exact qnx_le_case_labels_distinct.
  - pose proof (@format_table_bijection qnx_le qnx_le_case_labels_distinct)
      as [Hback [Hforth _]].
    split; assumption.
Defined.

(** ** The write path *)

Ltac run_monad :=
  unfold bind, call, emit, ret, QSA_SetError; simpl.

(** The same without touching the comparisons. *)
Ltac step_monad :=
  cbv beta iota zeta delta [bind call emit ret QSA_SetError];
  cbn [fst snd List.length].

Section PlayFacts.
Context {H : Headers}.
Variable W : Native.

(** The [while] of line 122 calls nothing but the read of the shutdown
    signal; when it is left with bytes to write, the last read found the
    signal set. *)
Lemma PlayDevice_while_trace (fuel : nat) (towrite : Z) (tr : trace) :
  exists reads,
    snd (PlayDevice_while W fuel towrite tr) = reads ++ tr /\
    forallb is_shutdown_read reads = true /\
    (fst (PlayDevice_while W fuel towrite tr) = true -> 0 < towrite ->
       exists reads', reads = SDL_GetAtomicInt_shutdown true :: reads').
Proof.
  revert tr. induction fuel as [| fuel IH]; intros tr; simpl.
  - exists []. repeat split; intros; discriminate.
  - destruct (Z.ltb_spec 0 towrite) as [Hpos | Hnpos].
    + run_monad.
      destruct (shutdown_at W (List.length tr)) eqn:Hs; simpl.
      * exists [SDL_GetAtomicInt_shutdown true]. repeat split.
        intros _ _. now exists [].
      * destruct (IH (SDL_GetAtomicInt_shutdown false :: tr))
          as [reads [Htr [Hall Hlast]]].
        exists (reads ++ [SDL_GetAtomicInt_shutdown false]).
        rewrite Htr, <- app_assoc. split; [reflexivity | ].
        split.
        -- rewrite forallb_app, Hall. reflexivity.
        -- intros Hleft Hp. destruct (Hlast Hleft Hp) as [reads' ->].
           now exists (reads' ++ [SDL_GetAtomicInt_shutdown false]).
    + exists []. repeat split. intros _ Hp. lia.
Qed.

(** With the shutdown signal never set and bytes to write, the [while]
    of line 122 is not left, whatever the fuel. *)
Lemma PlayDevice_while_spins (fuel : nat) (towrite : Z) (tr : trace) :
  0 < towrite -> (forall t, shutdown_at W t = false) ->
  fst (PlayDevice_while W fuel towrite tr) = false.
Proof.
  intros Hpos Hnever. revert tr.
  induction fuel as [| fuel IH]; intros tr; simpl; [reflexivity | ].
  destruct (Z.ltb_spec 0 towrite); [ | lia].
  run_monad. rewrite Hnever. simpl. apply IH.
Qed.

(** The block: its first call is the native write, and it makes no
    other write. *)
Lemma PlayDevice_block_trace (device : SDL_AudioDevice)
    (h : SDL_PrivateAudioData) (buffer towrite : Z) (tr : trace) :
  exists later,
    snd (PlayDevice_block W device h buffer towrite tr) =
      later ++
      snd_pcm_plugin_write (audio_handle h) buffer towrite
        (fst (write_at W (List.length tr) (audio_handle h) buffer towrite))
        (snd (write_at W (List.length tr) (audio_handle h) buffer towrite))
      :: tr /\
    forallb (fun e => negb (is_write e) && negb (is_shutdown_read e)) later
      = true.
Proof.
  unfold PlayDevice_block. run_monad.
  destruct (write_at W (List.length tr) (audio_handle h) buffer towrite)
    as [bw errno]; simpl.
  repeat match goal with
  | |- context [if ?c then _ else _] => destruct c; simpl
  | |- context [let (_, _) := ?p in _] => destruct p; simpl
  end;
  try (exists []; split; reflexivity);
  try (eexists [_]; split; reflexivity);
  try (eexists [_; _]; split; reflexivity);
  try (eexists [_; _; _]; split; reflexivity).
Qed.

(** [QSA_PlayDevice] as written, by cases: it returns at its first
    line, or the [while] is never left, or it goes through the block
    once. *)
Lemma QSA_PlayDevice_cases (fuel : nat) (device : SDL_AudioDevice)
    (buffer buflen : Z) (tr : trace) :
  let run := QSA_PlayDevice W fuel device buffer buflen tr in
  let t := List.length tr in
  (shutdown_at W t = true /\
     run = (Some true, SDL_GetAtomicInt_shutdown true :: tr)) \/
  (shutdown_at W t = false /\ hidden device = None /\
     run = (Some true, SDL_GetAtomicInt_shutdown false :: tr)) \/
  (exists h, shutdown_at W t = false /\ hidden device = Some h /\
     let spin := PlayDevice_while W fuel buflen
                   (SDL_GetAtomicInt_shutdown false :: tr) in
     (fst spin = false /\ run = (None, snd spin)) \/
     (fst spin = true /\
        let blk := PlayDevice_block W device h buffer buflen (snd spin) in
        run = (Some (after_block (fst blk)), snd blk))).
Proof.
  unfold QSA_PlayDevice. run_monad.
  destruct (shutdown_at W (List.length tr)) eqn:Hs; simpl.
  - left. now split.
  - right. destruct (hidden device) as [h | ] eqn:Hh.
    + right. exists h. split; [reflexivity | ]. split; [reflexivity | ].
      destruct (PlayDevice_while W fuel buflen
                  (SDL_GetAtomicInt_shutdown false :: tr)) as [b tr0] eqn:Hw.
      simpl. destruct b.
      * right. split; [reflexivity | ].
        destruct (PlayDevice_block W device h buffer buflen tr0)
          as [c tr1]; simpl.
        destruct c; reflexivity.
      * left. now split.
    + left. now repeat split.
Qed.

End PlayFacts.

Lemma forallb_In {A : Type} (p : A -> bool) (l : list A) (x : A) :
  forallb p l = true -> In x l -> p x = true.
Proof. intros Hall Hin. rewrite forallb_forall in Hall. now apply Hall. Qed.

Lemma writes_guarded_app (later rest : trace) :
  forallb (fun e => negb (is_write e) && negb (is_shutdown_read e)) later
    = true ->
  writes_guarded (later ++ rest) = writes_guarded rest.
Proof.
  induction later as [| e later IH]; simpl; [reflexivity | ].
  intros Hall. apply andb_prop in Hall as [He Hall].
  destruct e; simpl in He; try discriminate; now apply IH.
Qed.

(** Split every test of the block and compute the trace. *)
Ltac crunch_block :=
  unfold PlayDevice_block; step_monad;
  repeat match goal with
  | |- context [if ?c then _ else _] =>
      let E := fresh "Hc" in destruct c eqn:E; step_monad
  end.

Section PlayClaims.
Context {H : Headers}.
Variable W : Native.

(** An event of a run of [QSA_PlayDevice] that is not a read of the
    shutdown signal was made in the block; the block was entered once,
    after reads of the shutdown signal only, and with bytes to write only
    after a read that found the signal set. *)
Lemma QSA_PlayDevice_through_block (fuel : nat) (device : SDL_AudioDevice)
    (buffer buflen : Z) (e : event) :
  In e (snd (QSA_PlayDevice W fuel device buffer buflen [])) ->
  is_shutdown_read e = false ->
  exists h tr0,
    hidden device = Some h /\
    forallb is_shutdown_read tr0 = true /\
    (0 < buflen -> exists tr1, tr0 = SDL_GetAtomicInt_shutdown true :: tr1) /\
    QSA_PlayDevice W fuel device buffer buflen [] =
      (Some (after_block (fst (PlayDevice_block W device h buffer buflen tr0))),
       snd (PlayDevice_block W device h buffer buflen tr0)).
Proof.
  intros Hin He.
  pose proof (QSA_PlayDevice_cases W fuel device buffer buflen []) as Hc.
  cbv zeta in Hc.
  destruct (PlayDevice_while_trace W fuel buflen
              [SDL_GetAtomicInt_shutdown false]) as [reads [Htr [Hall Hlast]]].
  destruct Hc as [[_ Hrun] | [[_ [_ Hrun]] | [h [_ [Hh [[_ Hrun] | [Hleft Hrun]]]]]]].
  - rewrite Hrun in Hin. simpl in Hin.
    destruct Hin as [<- | []]. discriminate.
  - rewrite Hrun in Hin. simpl in Hin.
    destruct Hin as [<- | []]. discriminate.
  - rewrite Hrun in Hin. simpl in Hin. rewrite Htr in Hin.
    apply in_app_or in Hin as [Hin | [<- | []]]; [ | discriminate].
    rewrite (forallb_In _ _ _ Hall Hin) in He. discriminate.
  - exists h, (snd (PlayDevice_while W fuel buflen
                      [SDL_GetAtomicInt_shutdown false])).
    split; [exact Hh | ]. split; [ | split; [ | exact Hrun]].
    + rewrite Htr, forallb_app, Hall. reflexivity.
    + intros Hpos. destruct (Hlast Hleft Hpos) as [reads' ->].
      rewrite Htr. simpl. eauto.
Qed.

(** The stalled-device test of lines 126-130 in the block. *)
Lemma PlayDevice_block_stalled (device : SDL_AudioDevice)
    (h : SDL_PrivateAudioData) (buffer towrite : Z) (tr : trace) :
  timeout_on_wait h = true ->
  write_at W (List.length tr) (audio_handle h) buffer towrite = (0, EAGAIN) ->
  snd (PlayDevice_block W device h buffer towrite tr) =
    snd_pcm_plugin_write (audio_handle h) buffer towrite 0 EAGAIN :: tr /\
  after_block (fst (PlayDevice_block W device h buffer towrite tr)) = true /\
  (towrite <> 0 ->
   fst (PlayDevice_block W device h buffer towrite tr) = Return true).
Proof.
  intros Hflag Hwr. unfold PlayDevice_block. step_monad.
  rewrite Hwr. step_monad. rewrite Z.eqb_refl, Hflag.
  destruct (Z.eqb_spec 0 towrite) as [<- | Hne]; cbn [negb andb]; step_monad.
  - split; [reflexivity | ]. split; [reflexivity | ].
    intros Hn. now elim Hn.
  - rewrite Z.eqb_refl. cbn [andb]. step_monad.
    split; [reflexivity | ]. split; reflexivity.
Qed.

(** C7.  If the native write of a call of [QSA_PlayDevice] transfers
    zero bytes with [errno == EAGAIN] while [timeout_on_wait] is set, the
    call returns success, and that write is its last call: there is no
    delay, no status query and no second write. *)
Theorem QSA_PlayDevice_stalled_returns_success
    (fuel : nat) (device : SDL_AudioDevice) (h : SDL_PrivateAudioData)
    (buffer buflen pcm buf size : Z) :
  hidden device = Some h ->
  timeout_on_wait h = true ->
  In (snd_pcm_plugin_write pcm buf size 0 EAGAIN)
     (snd (QSA_PlayDevice W fuel device buffer buflen [])) ->
  fst (QSA_PlayDevice W fuel device buffer buflen []) = Some true /\
  exists before,
    snd (QSA_PlayDevice W fuel device buffer buflen []) =
      snd_pcm_plugin_write pcm buf size 0 EAGAIN :: before /\
    forallb is_shutdown_read before = true.
Proof.
  intros Hh Hflag Hin.
  destruct (QSA_PlayDevice_through_block fuel device buffer buflen _ Hin
              eq_refl) as [h' [tr0 [Hh' [Hreads [_ Hrun]]]]].
  rewrite Hh in Hh'. injection Hh' as <-.
  rewrite Hrun in Hin |- *. simpl in Hin |- *.
  destruct (PlayDevice_block_trace W device h buffer buflen tr0)
    as [later [Htr Hlater]].
  assert (Hwr : write_at W (List.length tr0) (audio_handle h) buffer buflen
                = (0, EAGAIN) /\ pcm = audio_handle h /\ buf = buffer
                  /\ size = buflen).
  { rewrite Htr in Hin. apply in_app_or in Hin as [Hin | [Heq | Hin]].
    - pose proof (forallb_In _ _ _ Hlater Hin) as Hf. discriminate.
    - injection Heq as <- <- <- Hbw Herr.
      destruct (write_at W (List.length tr0) (audio_handle h) buffer buflen).
      simpl in *. subst. repeat split.
    - pose proof (forallb_In _ _ _ Hreads Hin) as Hf. discriminate. }
  destruct Hwr as [Hwr [-> [-> ->]]].
  destruct (PlayDevice_block_stalled device h buffer buflen tr0 Hflag Hwr)
    as [Hsnd [Hafter _]].
  rewrite Hafter, Hsnd. split; [reflexivity | ].
  exists tr0. split; [reflexivity | exact Hreads].
Qed.

End PlayClaims.

Lemma QSA_PlayDevice_stalled_returns_success_witness :
  hidden (stereo_device true) = Some (open_hidden true) /\
  timeout_on_wait (open_hidden true) = true /\
  In (snd_pcm_plugin_write 7 1000 8 0 (@EAGAIN qnx_le))
     (snd (@QSA_PlayDevice qnx_le
             (play_world (shutdown_from 1) (write_none 11) (0, 0) 0)
             5 (stereo_device true) 1000 8 [])) /\
  fst (@QSA_PlayDevice qnx_le
         (play_world (shutdown_from 1) (write_none 11) (0, 0) 0)
         5 (stereo_device true) 1000 8 []) = Some true.
Proof.
  assert (Hin : In (snd_pcm_plugin_write 7 1000 8 0 (@EAGAIN qnx_le))
                  (snd (@QSA_PlayDevice qnx_le
                     (play_world (shutdown_from 1) (write_none 11) (0, 0) 0)
                     5 (stereo_device true) 1000 8 []))).
  { vm_compute. left. reflexivity. }
  split; [reflexivity | ]. split; [reflexivity | ]. split; [exact Hin | ].
  exact (proj1 (@QSA_PlayDevice_stalled_returns_success qnx_le
                  (play_world (shutdown_from 1) (write_none 11) (0, 0) 0)
                  5 (stereo_device true) (open_hidden true)
                  1000 8 7 1000 8 eq_refl eq_refl Hin)).
Defined.

Section PlayRecovery.
Context {H : Headers}.
Variable W : Native.

(** The would-block branch of lines 133-139: the remaining count goes
    down by the bytes written, the cursor goes up by the bytes written
    times the channel count. *)
Lemma PlayDevice_block_would_block (device : SDL_AudioDevice)
    (h : SDL_PrivateAudioData) (buffer towrite : Z) (tr : trace)
    (bw errno : Z) :
  write_at W (List.length tr) (audio_handle h) buffer towrite = (bw, errno) ->
  bw <> towrite ->
  errno = EAGAIN \/ errno = EWOULDBLOCK ->
  ~ (errno = EAGAIN /\ bw = 0 /\ timeout_on_wait h = true) ->
  PlayDevice_block W device h buffer towrite tr =
    (Continue (buffer + bw * channels (spec device)) (towrite - bw),
     SDL_Delay 1
     :: snd_pcm_plugin_write (audio_handle h) buffer towrite bw errno :: tr).
Proof.
  intros Hwr Hshort Hwould Hnot.
  unfold PlayDevice_block. step_monad. rewrite Hwr. step_monad.
  destruct (Z.eqb_spec bw towrite) as [Heq | _]; [contradiction | ].
  cbn [negb]. step_monad.
  destruct (Z.eqb_spec errno EAGAIN) as [He | He];
    destruct (Z.eqb_spec bw 0) as [Hb | Hb];
    destruct (timeout_on_wait h) eqn:Hf; cbn [andb orb]; step_monad;
    try (exfalso; apply Hnot; repeat split; assumption);
    try reflexivity.
  all: destruct (Z.eqb_spec errno EWOULDBLOCK) as [He' | He'];
    [reflexivity | exfalso; tauto].
Qed.

(** The fault branch of lines 140-156, outcome by outcome. *)
Lemma PlayDevice_block_fault (device : SDL_AudioDevice)
    (h : SDL_PrivateAudioData) (buffer towrite : Z) (tr : trace)
    (bw errno ret st : Z) :
  write_at W (List.length tr) (audio_handle h) buffer towrite = (bw, errno) ->
  bw <> towrite ->
  errno <> EAGAIN -> errno <> EWOULDBLOCK ->
  errno = EINVAL \/ errno = EIO ->
  status_at W (S (List.length tr)) (audio_handle h) (channel_of device)
    = (ret, st) ->
  let wr := snd_pcm_plugin_write (audio_handle h) buffer towrite bw errno in
  let sq := snd_pcm_plugin_status (audio_handle h) (channel_of device)
              ret st in
  let pr := prepare_at W (S (S (List.length tr))) (audio_handle h)
              (channel_of device) in
  let pq := snd_pcm_plugin_prepare (audio_handle h) (channel_of device) pr in
  (ret < 0 ->
     PlayDevice_block W device h buffer towrite tr =
       (Return false,
        SDL_SetError "QSA: snd_pcm_plugin_status() failed: %s" (Some ret)
        :: sq :: wr :: tr)) /\
  (0 <= ret -> st <> SND_PCM_STATUS_UNDERRUN -> st <> SND_PCM_STATUS_READY ->
     PlayDevice_block W device h buffer towrite tr =
       (Continue buffer towrite, sq :: wr :: tr)) /\
  (0 <= ret -> st = SND_PCM_STATUS_UNDERRUN \/ st = SND_PCM_STATUS_READY ->
     pr < 0 ->
     PlayDevice_block W device h buffer towrite tr =
       (Return false,
        SDL_SetError "QSA: snd_pcm_plugin_prepare() failed: %s" (Some pr)
        :: pq :: sq :: wr :: tr)) /\
  (0 <= ret -> st = SND_PCM_STATUS_UNDERRUN \/ st = SND_PCM_STATUS_READY ->
     0 <= pr ->
     PlayDevice_block W device h buffer towrite tr =
       (Continue buffer towrite, pq :: sq :: wr :: tr)).
Proof.
  intros Hwr Hshort Hne1 Hne2 Hfault Hst wr sq pr pq.
  subst wr sq pq pr.
  unfold PlayDevice_block. step_monad. rewrite Hwr. step_monad.
  destruct (Z.eqb_spec bw towrite) as [Heq | _]; [contradiction | ].
  cbn [negb]. step_monad.
  destruct (Z.eqb_spec errno EAGAIN) as [He | _]; [contradiction | ].
  cbn [andb orb]. step_monad.
  destruct (Z.eqb_spec errno EWOULDBLOCK) as [He | _]; [contradiction | ].
  assert (Hf : (errno =? EINVAL) || (errno =? EIO) = true).
  { destruct Hfault as [-> | ->]; rewrite Z.eqb_refl;
      [reflexivity | apply orb_true_r]. }
  rewrite Hf. step_monad. rewrite Hst. step_monad.
  destruct (Z.ltb_spec ret 0) as [Hneg | Hpos]; step_monad.
  - repeat split; intros; try lia; reflexivity.
  - destruct (Z.eqb_spec st SND_PCM_STATUS_UNDERRUN) as [Hu | Hu];
      destruct (Z.eqb_spec st SND_PCM_STATUS_READY) as [Hr | Hr];
      cbn [orb]; step_monad;
      try (destruct (Z.ltb_spec
                       (prepare_at W (S (S (List.length tr))) (audio_handle h)
                          (channel_of device)) 0); step_monad);
      repeat split; intros; try lia; try tauto; try reflexivity.
Qed.

(** The only [return true] of the block is the one of line 128, behind
    the test of [timeout_on_wait]. *)
Lemma PlayDevice_block_return_true (device : SDL_AudioDevice)
    (h : SDL_PrivateAudioData) (buffer towrite : Z) (tr : trace) :
  fst (PlayDevice_block W device h buffer towrite tr) = Return true ->
  timeout_on_wait h = true /\
  write_at W (List.length tr) (audio_handle h) buffer towrite = (0, EAGAIN) /\
  towrite <> 0.
Proof.
  unfold PlayDevice_block. step_monad.
  destruct (write_at W (List.length tr) (audio_handle h) buffer towrite)
    as [bw errno]. step_monad.
  destruct (Z.eqb_spec bw towrite) as [Heq | Hne]; cbn [negb]; step_monad;
    [discriminate | ].
  destruct (Z.eqb_spec errno EAGAIN) as [He | He];
    destruct (Z.eqb_spec bw 0) as [Hb | Hb];
    destruct (timeout_on_wait h) eqn:Hf; cbn [andb orb]; step_monad;
    try (intros _; subst; repeat split; congruence);
    repeat match goal with
    | |- context [if ?c then _ else _] => destruct c; step_monad
    end; discriminate.
Qed.

End PlayRecovery.

(** Take apart a membership in a computed trace that ends in reads of
    the shutdown signal. *)
Ltac trace_members Hin Hreads :=
  simpl in Hin;
  repeat match type of Hin with
  | _ \/ _ => destruct Hin as [Hin | Hin]; [try discriminate Hin | ]
  end;
  try (exfalso; pose proof (forallb_In _ _ _ Hreads Hin); discriminate).

Section PlayEscalation.
Context {H : Headers}.
Variable W : Native.

(** A failed status query or a failed re-prepare makes the block
    execute [return false]. *)
Lemma PlayDevice_block_failed_recovery (device : SDL_AudioDevice)
    (h : SDL_PrivateAudioData) (buffer towrite : Z) (tr : trace) :
  forallb is_shutdown_read tr = true ->
  (forall pcm ch ret st,
     In (snd_pcm_plugin_status pcm ch ret st)
        (snd (PlayDevice_block W device h buffer towrite tr)) ->
     ret < 0 ->
     fst (PlayDevice_block W device h buffer towrite tr) = Return false) /\
  (forall pcm ch ret,
     In (snd_pcm_plugin_prepare pcm ch ret)
        (snd (PlayDevice_block W device h buffer towrite tr)) ->
     ret < 0 ->
     fst (PlayDevice_block W device h buffer towrite tr) = Return false).
Proof.
  intros Hreads. split.
  - intros pcm ch ret st Hin Hneg. revert Hin.
    crunch_block; intros Hin; try reflexivity; exfalso;
      trace_members Hin Hreads;
      injection Hin as <- <- <- <-;
      repeat match goal with
      | Hc : (_ <? _) = false |- _ => apply Z.ltb_ge in Hc
      end; lia.
  - intros pcm ch ret Hin Hneg. revert Hin.
    crunch_block; intros Hin; try reflexivity; exfalso;
      trace_members Hin Hreads;
      injection Hin as <- <- <-;
      repeat match goal with
      | Hc : (_ <? _) = false |- _ => apply Z.ltb_ge in Hc
      end; lia.
Qed.

(** C4, as amended.  After a native write that fails with [EINVAL] or
    [EIO]: a status query that succeeds and reports neither underrun nor
    ready ends the block at [continue], with no re-prepare, no error
    report, and the cursor and the remaining count unchanged; a status
    query that fails ends the block at [return false], and so does a
    re-prepare that fails after a reported underrun or ready status.  On
    the whole call: when the status query or the re-prepare of a call of
    [QSA_PlayDevice] fails, the call returns false. *)
Theorem QSA_PlayDevice_fault_recovery
    (device : SDL_AudioDevice) (h : SDL_PrivateAudioData)
    (buffer towrite : Z) (tr : trace) (bw errno ret st : Z) :
  write_at W (List.length tr) (audio_handle h) buffer towrite = (bw, errno) ->
  bw <> towrite ->
  errno <> EAGAIN -> errno <> EWOULDBLOCK ->
  errno = EINVAL \/ errno = EIO ->
  status_at W (S (List.length tr)) (audio_handle h) (channel_of device)
    = (ret, st) ->
  let wr := snd_pcm_plugin_write (audio_handle h) buffer towrite bw errno in
  let sq := snd_pcm_plugin_status (audio_handle h) (channel_of device)
              ret st in
  let pr := prepare_at W (S (S (List.length tr))) (audio_handle h)
              (channel_of device) in
  let pq := snd_pcm_plugin_prepare (audio_handle h) (channel_of device) pr in
  (0 <= ret -> st <> SND_PCM_STATUS_UNDERRUN -> st <> SND_PCM_STATUS_READY ->
     PlayDevice_block W device h buffer towrite tr =
       (Continue buffer towrite, sq :: wr :: tr)) /\
  (ret < 0 ->
     PlayDevice_block W device h buffer towrite tr =
       (Return false,
        SDL_SetError "QSA: snd_pcm_plugin_status() failed: %s" (Some ret)
        :: sq :: wr :: tr)) /\
  (0 <= ret -> st = SND_PCM_STATUS_UNDERRUN \/ st = SND_PCM_STATUS_READY ->
     pr < 0 ->
     PlayDevice_block W device h buffer towrite tr =
       (Return false,
        SDL_SetError "QSA: snd_pcm_plugin_prepare() failed: %s" (Some pr)
        :: pq :: sq :: wr :: tr)) /\
  (forall fuel dev buf buflen pcm ch r s,
     In (snd_pcm_plugin_status pcm ch r s)
        (snd (QSA_PlayDevice W fuel dev buf buflen [])) ->
     r < 0 ->
     fst (QSA_PlayDevice W fuel dev buf buflen []) = Some false) /\
  (forall fuel dev buf buflen pcm ch r,
     In (snd_pcm_plugin_prepare pcm ch r)
        (snd (QSA_PlayDevice W fuel dev buf buflen [])) ->
     r < 0 ->
     fst (QSA_PlayDevice W fuel dev buf buflen []) = Some false).
Proof.
  intros Hwr Hshort Hne1 Hne2 Hfault Hst wr sq pr pq.
  destruct (PlayDevice_block_fault W device h buffer towrite tr bw errno
              ret st Hwr Hshort Hne1 Hne2 Hfault Hst)
    as [Hfail [Hother [Hprep _]]].
  split; [exact Hother | ]. split; [exact Hfail | ]. split; [exact Hprep | ].
  split.
  - intros fuel dev buf buflen pcm ch r s Hin Hneg.
    destruct (QSA_PlayDevice_through_block W fuel dev buf buflen _ Hin
                eq_refl) as [h' [tr0 [_ [Hreads [_ Hrun]]]]].
    rewrite Hrun in Hin |- *. cbn [fst snd] in Hin |- *.
    destruct (PlayDevice_block_failed_recovery dev h' buf buflen tr0 Hreads)
      as [Hq _].
    rewrite (Hq _ _ _ _ Hin Hneg). reflexivity.
  - intros fuel dev buf buflen pcm ch r Hin Hneg.
    destruct (QSA_PlayDevice_through_block W fuel dev buf buflen _ Hin
                eq_refl) as [h' [tr0 [_ [Hreads [_ Hrun]]]]].
    rewrite Hrun in Hin |- *. cbn [fst snd] in Hin |- *.
    destruct (PlayDevice_block_failed_recovery dev h' buf buflen tr0 Hreads)
      as [_ Hp].
    rewrite (Hp _ _ _ Hin Hneg). reflexivity.
Qed.

End PlayEscalation.

(** C4, counterexample.  The write fails with [EIO], the status query
    succeeds and reports the status 3, which is neither
    [SND_PCM_STATUS_UNDERRUN] (4) nor [SND_PCM_STATUS_READY] (1).  The
    block ends at [continue], not at [return false]; [QSA_PlayDevice] as
    written, called with nothing to write, returns true; and with the
    block as the statement of the loop the write is retried and the call
    returns true. *)
Lemma QSA_PlayDevice_other_status_not_fatal :
  let Wx := play_world (fun _ => false) (write_fails_until 3 5) (0, 3) 0 in
  @PlayDevice_block qnx_le Wx (stereo_device false) (open_hidden false)
     1000 8 [] =
    (Continue 1000 8,
     [snd_pcm_plugin_status 7 1 0 3; snd_pcm_plugin_write 7 1000 8 (-1) 5]) /\
  @QSA_PlayDevice qnx_le Wx 1 (stereo_device false) 1000 0 [] =
    (Some true,
     [snd_pcm_plugin_status 7 1 0 3; snd_pcm_plugin_write 7 1000 0 (-1) 5;
      SDL_GetAtomicInt_shutdown false]) /\
  @play_spec qnx_le Wx 3 (stereo_device false) 1000 8 [] =
    (Some true,
     [snd_pcm_plugin_write 7 1000 8 8 0; SDL_GetAtomicInt_shutdown false;
      snd_pcm_plugin_status 7 1 0 3; snd_pcm_plugin_write 7 1000 8 (-1) 5;
      SDL_GetAtomicInt_shutdown false; SDL_GetAtomicInt_shutdown false]).
Proof. repeat split. Qed.

Lemma QSA_PlayDevice_fault_recovery_witness :
  let Wx := play_world (fun _ => false) (write_fails_until 3 5) (0, 3) 0 in
  (write_at Wx 0 7 1000 8 = (-1, 5) /\ -1 <> 8 /\
   5 <> @EAGAIN qnx_le /\ 5 <> @EWOULDBLOCK qnx_le /\
   (5 = @EINVAL qnx_le \/ 5 = @EIO qnx_le) /\
   status_at Wx 1 7 1 = (0, 3)) /\
  @PlayDevice_block qnx_le Wx (stereo_device false) (open_hidden false)
     1000 8 [] =
    (Continue 1000 8,
     [snd_pcm_plugin_status 7 1 0 3; snd_pcm_plugin_write 7 1000 8 (-1) 5]).
Proof.
  intro Wx.
  assert (H1 : -1 <> 8) by lia.
  assert (H2 : 5 <> @EAGAIN qnx_le) by (simpl; lia).
  assert (H3 : 5 <> @EWOULDBLOCK qnx_le) by (simpl; lia).
  assert (H4 : 5 = @EINVAL qnx_le \/ 5 = @EIO qnx_le)
    by (right; reflexivity).
  split; [repeat split; assumption | ].
  apply (proj1 (@QSA_PlayDevice_fault_recovery qnx_le Wx
                  (stereo_device false) (open_hidden false) 1000 8 []
                  (-1) 5 0 3 eq_refl H1 H2 H3 H4 eq_refl));
    simpl; lia.
Defined.

(** C5, the failing input.  A stereo device, eight bytes at address 1000
    to write; the write transfers four bytes and leaves [errno] at
    [EAGAIN].  The remaining count goes from 8 to 4, but the cursor goes
    from 1000 to 1008 (line 138 adds [bw * device->spec.channels]), not
    to 1004.  With the block as the statement of the loop, the retry
    writes the four bytes at 1008-1011, past the end of the buffer, and
    the bytes at 1004-1007 are never written. *)
Theorem PlayDevice_partial_write_cursor :
  let Wp := play_world (fun _ => false) (write_short_until 3 4 11) (0, 0) 0 in
  @PlayDevice_block qnx_le Wp (stereo_device false) (open_hidden false)
     1000 8 [] =
    (Continue 1008 4,
     [SDL_Delay 1; snd_pcm_plugin_write 7 1000 8 4 11]) /\
  @play_spec qnx_le Wp 3 (stereo_device false) 1000 8 [] =
    (Some true,
     [snd_pcm_plugin_write 7 1008 4 4 0; SDL_GetAtomicInt_shutdown false;
      SDL_Delay 1; snd_pcm_plugin_write 7 1000 8 4 11;
      SDL_GetAtomicInt_shutdown false; SDL_GetAtomicInt_shutdown false]).
Proof. repeat split. Qed.

(** C1, the failing input.  Eight bytes to write, the shutdown signal
    unset at entry and set while line 122 runs.  [QSA_PlayDevice] as
    written tests the signal until it is set, and makes its one write
    then, after a read that found the signal set.  With the signal never
    set it makes no write within any number of tests. *)
Theorem QSA_PlayDevice_writes_after_shutdown :
  let W1 := play_world (shutdown_from 2) write_all (0, 0) 0 in
  let W2 := play_world (fun _ => false) write_all (0, 0) 0 in
  events_of (@QSA_PlayDevice qnx_le W1 5 (stereo_device false) 1000 8) =
    [SDL_GetAtomicInt_shutdown false; SDL_GetAtomicInt_shutdown false;
     SDL_GetAtomicInt_shutdown true; snd_pcm_plugin_write 7 1000 8 8 0] /\
  writes_guarded
    (snd (@QSA_PlayDevice qnx_le W1 5 (stereo_device false) 1000 8 []))
    = false /\
  (forall fuel,
     fst (@QSA_PlayDevice qnx_le W2 fuel (stereo_device false) 1000 8 [])
       = None /\
     count_events is_write
       (snd (@QSA_PlayDevice qnx_le W2 fuel (stereo_device false) 1000 8 []))
       = 0%nat).
Proof.
  intros W1 W2. split; [reflexivity | ]. split; [reflexivity | ].
  intros fuel.
  pose proof (@QSA_PlayDevice_cases qnx_le W2 fuel (stereo_device false)
                1000 8 []) as Hc.
  cbv zeta in Hc.
  destruct Hc as [[Hs _] | [[_ [Hh _]] | [h [_ [_ [[_ Hrun] | [Hleft _]]]]]]].
  - discriminate Hs.
  - discriminate Hh.
  - rewrite Hrun. split; [reflexivity | ]. cbn [snd].
    destruct (PlayDevice_while_trace W2 fuel 8
                [SDL_GetAtomicInt_shutdown false]) as [reads [Htr [Hall _]]].
    rewrite Htr. unfold count_events.
    rewrite filter_app, length_app. simpl.
    assert (Hnone : filter is_write reads = []).
    { clear Htr. induction reads as [| e reads IH]; [reflexivity | ].
      simpl in Hall. apply andb_prop in Hall as [He Hall].
      destruct e; simpl in He; try discriminate. simpl. now apply IH. }
    rewrite Hnone. reflexivity.
  - rewrite (PlayDevice_while_spins W2 fuel 8
               [SDL_GetAtomicInt_shutdown false]) in Hleft;
      [discriminate | lia | reflexivity].
Qed.

Section PlayLoop.
Context {H : Headers}.
Variable W : Native.

(** In [QSA_PlayDevice] as written, with bytes to write, a native write
    is the next call after a read of the shutdown signal that found it
    set. *)
Lemma QSA_PlayDevice_write_follows_shutdown (fuel : nat)
    (device : SDL_AudioDevice) (buffer buflen : Z) (w : event) :
  0 < buflen ->
  In w (snd (QSA_PlayDevice W fuel device buffer buflen [])) ->
  is_write w = true ->
  exists later before,
    snd (QSA_PlayDevice W fuel device buffer buflen []) =
      later ++ w :: SDL_GetAtomicInt_shutdown true :: before.
Proof.
  intros Hpos Hin Hw.
  assert (Hnr : is_shutdown_read w = false) by (destruct w; easy).
  destruct (QSA_PlayDevice_through_block W fuel device buffer buflen w Hin Hnr)
    as [h [tr0 [_ [Hreads [Hlast Hrun]]]]].
  destruct (Hlast Hpos) as [tr1 ->].
  rewrite Hrun in Hin |- *. cbn [snd] in Hin |- *.
  destruct (PlayDevice_block_trace W device h buffer buflen
              (SDL_GetAtomicInt_shutdown true :: tr1)) as [later [Htr Hlater]].
  rewrite Htr in Hin |- *.
  apply in_app_or in Hin as [Hin | [<- | Hin]].
  - pose proof (forallb_In _ _ _ Hlater Hin) as Hf.
    cbv beta in Hf. rewrite Hw in Hf. discriminate.
  - now exists later, tr1.
  - pose proof (forallb_In _ _ _ Hreads Hin) as Hf.
    destruct w; discriminate.
Qed.

(** With the signal never set and bytes to write, [QSA_PlayDevice] as
    written does not get past line 122. *)
Lemma QSA_PlayDevice_spins (fuel : nat) (device : SDL_AudioDevice)
    (h : SDL_PrivateAudioData) (buffer buflen : Z) :
  0 < buflen -> hidden device = Some h ->
  (forall t, shutdown_at W t = false) ->
  fst (QSA_PlayDevice W fuel device buffer buflen []) = None.
Proof.
  intros Hpos Hh Hnever.
  pose proof (QSA_PlayDevice_cases W fuel device buffer buflen []) as Hc.
  cbv zeta in Hc.
  destruct Hc as [[Hs _] | [[_ [Hn _]] | [h' [_ [_ [[_ Hrun] | [Hleft _]]]]]]].
  - rewrite Hnever in Hs. discriminate.
  - congruence.
  - now rewrite Hrun.
  - rewrite PlayDevice_while_spins in Hleft by assumption. discriminate.
Qed.

(** The loop the way the spec words it keeps every write behind a read
    that found the signal unset, with bytes left to write. *)
Lemma play_retry_loop_guarded (fuel : nat) (device : SDL_AudioDevice)
    (h : SDL_PrivateAudioData) (buffer towrite : Z) (tr : trace) :
  writes_guarded tr = true ->
  writes_guarded (snd (play_retry_loop W fuel device h buffer towrite tr))
    = true.
Proof.
  revert buffer towrite tr.
  induction fuel as [| fuel IH]; intros buffer towrite tr Hg; simpl;
    [exact Hg | ].
  destruct (Z.ltb_spec 0 towrite) as [Hpos | Hnpos]; [ | exact Hg].
  unfold bind at 1. unfold call at 1.
  destruct (shutdown_at W (List.length tr)) eqn:Hs; cbn [negb].
  - exact Hg.
  - unfold bind.
    destruct (PlayDevice_block_trace W device h buffer towrite
                (SDL_GetAtomicInt_shutdown false :: tr))
      as [later [Htr Hlater]].
    destruct (PlayDevice_block W device h buffer towrite
                (SDL_GetAtomicInt_shutdown false :: tr)) as [c tr1] eqn:Hb.
    cbn [snd] in Htr.
    assert (Hg1 : writes_guarded tr1 = true).
    { rewrite Htr, writes_guarded_app by exact Hlater.
      simpl. rewrite Hg.
      destruct (Z.ltb_spec 0 towrite); [reflexivity | lia]. }
    destruct c; [exact Hg1 | now apply IH | now apply IH].
Qed.

Lemma play_spec_guarded (fuel : nat) (device : SDL_AudioDevice)
    (buffer buflen : Z) :
  writes_guarded (snd (play_spec W fuel device buffer buflen [])) = true.
Proof.
  unfold play_spec. step_monad.
  destruct (shutdown_at W 0%nat); [reflexivity | ].
  destruct (hidden device) as [h | ]; [ | reflexivity].
  now apply play_retry_loop_guarded.
Qed.

(** ** QSA_WaitDevice *)

(** C10.  When [SDL_IOReady], called with a timeout of 2000 ms, finds
    the descriptor ready (a positive result), [QSA_WaitDevice] clears
    [timeout_on_wait] and returns true, whatever the flag was before.
    After a wait that returned true the flag is set exactly when that
    wait timed out (result 0); so the block of [QSA_PlayDevice] that
    follows can leave by the [return true] of line 128 only when that
    wait timed out, not because an earlier wait had set the flag.  (A
    wait that fails, result -1, returns false and leaves the device as
    it was.) *)
Theorem QSA_WaitDevice_ready_clears_timeout
    (device : SDL_AudioDevice) (h : SDL_PrivateAudioData) (tr : trace) :
  hidden device = Some h ->
  let flags := if recording device then SDL_IOR_READ else SDL_IOR_WRITE in
  let result := ioready_at W (List.length tr) (audio_fd h) flags 2000 in
  (0 < result ->
     QSA_WaitDevice W device tr =
       (Some (true, set_timeout_on_wait device h false),
        SDL_IOReady (audio_fd h) flags 2000 result :: tr)) /\
  (forall device' tr',
     QSA_WaitDevice W device tr = (Some (true, device'), tr') ->
     exists h',
       hidden device' = Some h' /\
       (timeout_on_wait h' = true <-> result = 0) /\
       forall buffer towrite tr'',
         fst (PlayDevice_block W device' h' buffer towrite tr'')
           = Return true ->
         result = 0) /\
  (result = -1 ->
     QSA_WaitDevice W device tr =
       (Some (false, device),
        SDL_LogError "QSA: SDL_IOReady() failed: %s"
        :: SDL_IOReady (audio_fd h) flags 2000 result :: tr)).
Proof.
  intros Hh flags result. unfold QSA_WaitDevice. rewrite Hh.
  step_monad. change (2 * 1000) with 2000. fold flags. fold result.
  split; [ | split].
  - intros Hpos.
    destruct (Z.eqb_spec result (-1)); [lia | ].
    destruct (Z.eqb_spec result 0); [lia | ]. reflexivity.
  - intros device' tr'.
    destruct (Z.eqb_spec result (-1)) as [Hm | Hm]; step_monad;
      [intros Heq; discriminate | ].
    destruct (Z.eqb_spec result 0) as [Hz | Hz]; step_monad;
      intros Heq; injection Heq as <- <-;
      eexists; (split; [reflexivity | ]); cbn [timeout_on_wait]; split.
    + tauto.
    + intros; assumption.
    + split; [discriminate | contradiction].
    + intros buffer towrite tr'' Hret.
      apply PlayDevice_block_return_true in Hret as [Hflag _].
      discriminate Hflag.
  - intros Hfail. rewrite Hfail. reflexivity.
Qed.

End PlayLoop.

Lemma QSA_WaitDevice_ready_clears_timeout_witness :
  let Wr := play_world (fun _ => false) write_all (0, 0) 0 in
  hidden (stereo_device true) = Some (open_hidden true) /\
  @QSA_WaitDevice qnx_le Wr (stereo_device true) [] =
    (Some (true, stereo_device false), [SDL_IOReady 3 2 2000 1]).
Proof.
  intro Wr. split; [reflexivity | ].
  apply (proj1 (@QSA_WaitDevice_ready_clears_timeout qnx_le Wr
                  (stereo_device true) (open_hidden true) [] eq_refl)).
  simpl. lia.
Defined.

(** ** QSA_CloseDevice *)

Section CloseFacts.
Context {H : Headers}.
Variable W : Native.

(** C9.  A second [QSA_CloseDevice] right after a first one changes
    nothing and calls nothing.  This holds for every state of the
    device, also with a NULL [hidden], a NULL [audio_handle] or a NULL
    [pcm_buf], as a failed [QSA_OpenDevice] leaves them.  The two calls
    together free the output buffer at most once and close the native
    handle at most once; a NULL native handle is neither flushed nor
    closed. *)
Theorem QSA_CloseDevice_idempotent (device : SDL_AudioDevice) (tr : trace) :
  let first := QSA_CloseDevice W device tr in
  let second := QSA_CloseDevice W (fst first) (snd first) in
  hidden (fst first) = None /\
  second = first /\
  exists teardown,
    snd second = teardown ++ tr /\
    (count_events is_free_pcm_buf teardown <= 1)%nat /\
    (count_events is_close teardown <= 1)%nat /\
    match hidden device with
    | None => teardown = []
    | Some h =>
        count_events is_free_pcm_buf teardown = 1%nat /\
        (audio_handle h = 0 ->
         teardown = [SDL_free_hidden; SDL_free_pcm_buf (pcm_buf h)])
    end.
Proof.
  unfold QSA_CloseDevice.
  destruct (hidden device) as [h | ] eqn:Hh.
  - step_monad.
    destruct (Z.eqb_spec (audio_handle h) 0) as [Hz | Hnz]; cbn [negb];
      step_monad.
    + cbn [set_hidden hidden]. split; [reflexivity | ].
      split; [reflexivity | ].
      exists [SDL_free_hidden; SDL_free_pcm_buf (pcm_buf h)].
      split; [reflexivity | ].
      repeat split; unfold count_events; simpl; lia.
    + destruct (NTO_VERSION <? 710); step_monad;
        cbn [set_hidden hidden]; (split; [reflexivity | ]);
        (split; [reflexivity | ]);
        [ eexists [_; _; _; _] | eexists [_; _; _] ];
        (split; [reflexivity | ]); unfold count_events; simpl;
        repeat split; try lia; intros; contradiction.
  - cbv zeta. unfold ret. cbn [fst snd]. rewrite Hh.
    split; [reflexivity | ]. split; [reflexivity | ].
    exists []. repeat split; unfold count_events; simpl; lia.
Qed.

End CloseFacts.

(** The device that a [QSA_OpenDevice] failing in [snd_pcm_open] leaves
    is closed without a call on the missing handle, and closing it again
    calls nothing. *)
Example QSA_CloseDevice_after_failed_open :
  let Wf := open_world [0x8010] (-2, 0) in
  let opened := @QSA_OpenDevice qnx_le Wf (closed_device 0x8010) [] in
  fst (fst opened) = false /\
  hidden (snd (fst opened)) = Some zeroed_hidden /\
  let first := @QSA_CloseDevice qnx_le Wf (snd (fst opened)) [] in
  snd first = [SDL_free_hidden; SDL_free_pcm_buf 0] /\
  @QSA_CloseDevice qnx_le Wf (fst first) [] = (fst first, []).
Proof. repeat split. Qed.

(** ** Format negotiation in QSA_OpenDevice *)

Section Negotiation.
Context {H : Headers}.

(** The loop stops at the first candidate that is a case label. *)
Lemma OpenDevice_closest_first (closefmts : list Z) (c : Z)
    (pre post : list Z) (f q : Z) :
  candidates closefmts = pre ++ f :: post ->
  (forall x, In x pre -> ~ In x sdl_table_formats) ->
  OpenDevice_CHECKFMT f = Some q ->
  OpenDevice_closest closefmts c = (f, q).
Proof.
  revert pre.
  induction closefmts as [| x rest IH]; intros pre Hcand Hpre Hf; simpl in *.
  - destruct pre; discriminate.
  - destruct (Z.eqb_spec x 0) as [Hz | Hnz].
    + destruct pre; discriminate.
    + destruct pre as [| p pre]; simpl in Hcand; injection Hcand as Hx Hrest.
      * subst x. now rewrite Hf.
      * subst p.
        assert (Hnone : OpenDevice_CHECKFMT x = None).
        { apply CHECKFMT_none_not_in_table. apply Hpre. now left. }
        rewrite Hnone. apply (IH pre Hrest); [ | exact Hf].
        intros y Hy. apply Hpre. now right.
Qed.

(** With no candidate among the case labels the loop runs to the
    terminator and assigns nothing. *)
Lemma OpenDevice_closest_none (closefmts : list Z) (c : Z) :
  (forall x, In x (candidates closefmts) -> ~ In x sdl_table_formats) ->
  OpenDevice_closest closefmts c = (0, c).
Proof.
  induction closefmts as [| x rest IH]; intros Hnone; simpl in *;
    [reflexivity | ].
  destruct (Z.eqb_spec x 0) as [Hz | Hnz]; [reflexivity | ].
  simpl in Hnone.
  assert (Hx : OpenDevice_CHECKFMT x = None).
  { apply CHECKFMT_none_not_in_table. apply Hnone. now left. }
  rewrite Hx. apply IH. intros y Hy. apply Hnone. now right.
Qed.

(** What the loop selects is a candidate and a case label. *)
Lemma OpenDevice_closest_in_table (closefmts : list Z) (c : Z) :
  fst (OpenDevice_closest closefmts c) = 0 \/
  (In (fst (OpenDevice_closest closefmts c)) (candidates closefmts) /\
   In (fst (OpenDevice_closest closefmts c)) sdl_table_formats /\
   OpenDevice_CHECKFMT (fst (OpenDevice_closest closefmts c))
     = Some (snd (OpenDevice_closest closefmts c))).
Proof.
  induction closefmts as [| x rest IH]; simpl; [now left | ].
  destruct (Z.eqb_spec x 0) as [Hz | Hnz]; [now left | ].
  destruct (OpenDevice_CHECKFMT x) as [q | ] eqn:Hx; simpl.
  - right. split; [now left | ]. split; [ | exact Hx].
    now destruct (CHECKFMT_some_in_table x q Hx).
  - destruct IH as [IH | [IH1 IH2]]; [now left | right].
    split; [now right | exact IH2].
Qed.

Variable W : Native.

(** [QSA_OpenDevice] from the call of [SDL_ClosestAudioFormats] on: what
    the loop over the candidates found decides between the error of line
    246 and the submission of the parameters. *)
Lemma QSA_OpenDevice_negotiation (device : SDL_AudioDevice) (fmt : Z)
    (closefmts : list Z) :
  In (SDL_ClosestAudioFormats fmt closefmts)
     (snd (QSA_OpenDevice W device [])) ->
  let run := QSA_OpenDevice W device [] in
  let found := OpenDevice_closest closefmts (cp_format QSA_InitAudioParams) in
  fmt = format (spec device) /\
  (fst found = 0 ->
     fst (fst run) = false /\
     spec (snd (fst run)) = spec device /\
     (exists before,
        snd run =
          SDL_SetError "QSA: Couldn't find any hardware audio formats" None
          :: SDL_ClosestAudioFormats fmt closefmts :: before) /\
     count_events is_params (snd run) = 0%nat) /\
  (fst found <> 0 ->
     format (spec (snd (fst run))) = fst found /\
     exists pcm cparams ret,
       In (snd_pcm_plugin_params pcm cparams ret) (snd run) /\
       cp_format cparams = snd found /\
       cp_voices cparams = channels (spec device) /\
       cp_rate cparams = freq (spec device)).
Proof.
  intros Hin run found. subst run found. revert Hin.
  unfold QSA_OpenDevice.
  destruct (recording device) eqn:Hrec; step_monad.
  { intros [Hin | []]. discriminate. }
  destruct (calloc_at W 0%nat); cbn [negb]; step_monad.
  2:{ intros [Hin | []]. discriminate. }
  destruct (Z.ltb_spec (fst (open_at W 1%nat
              (Z.land (handle device mod 2 ^ 32) 65535)
              (Z.land (Z.shiftr (handle device mod 2 ^ 32) 16) 65535)
              SND_PCM_OPEN_PLAYBACK)) 0) as [Hop | Hop]; step_monad.
  { intros [Hin | [Hin | [Hin | []]]]; discriminate. }
  set (cl := closest_at W 2%nat (format (spec device))).
  set (pcm := snd (open_at W 1%nat _ _ _)).
  intros Hin.
  assert (Heq : fmt = format (spec device) /\ closefmts = cl).
  { revert Hin.
    destruct (fst (OpenDevice_closest cl (cp_format QSA_InitAudioParams)) =? 0);
      step_monad.
    - intros [Hin | [Hin | [Hin | [Hin | []]]]]; try discriminate.
      injection Hin as <- <-. now split.
    - repeat match goal with
      | |- context [if ?c then _ else _] => destruct c; step_monad
      end; intros Hin; trace_members Hin (@eq_refl bool true);
      try contradiction; injection Hin as <- <-; now split. }
  destruct Heq as [-> ->]. split; [reflexivity | ]. clear Hin.
  split.
  - intros Hz. rewrite Hz, Z.eqb_refl. step_monad.
    cbn [set_hidden spec]. repeat split. eexists. reflexivity.
  - intros Hnz.
    destruct (Z.eqb_spec (fst (OpenDevice_closest cl
                (cp_format QSA_InitAudioParams))) 0) as [Hz | _];
      [contradiction | ].
    step_monad.
    repeat match goal with
    | |- context [if ?c then _ else _] => destruct c; step_monad
    end; cbn [set_hidden spec format set_format];
    (split; [reflexivity | ]);
    eexists _, _, _; (split; [simpl; tauto | ]);
    cbn [set_cparams_format cp_format cp_voices cp_rate channels freq
         set_format]; repeat split.
Qed.

End Negotiation.

Section NegotiationClaims.
Context {H : Headers}.
Variable W : Native.

(** C2.  When [QSA_OpenDevice] gets as far as asking the host for the
    formats closest to the desired format [device->spec.format]: if the
    candidates (the entries of the array before
    its terminating 0) are [pre ++ f :: post] with no format of [pre] in
    the table and [f] in the table, then [f] is the format written to
    [device->spec.format], and the parameters are submitted with the
    native format the table gives for [f]; no later candidate is
    selected.  If no candidate is in the table, the call fails with the
    error of line 246, submits no parameters and leaves the spec of the
    device as it was. *)
Theorem QSA_OpenDevice_selects_first_mappable
    (device : SDL_AudioDevice) (fmt : Z) (closefmts : list Z) :
  In (SDL_ClosestAudioFormats fmt closefmts)
     (snd (QSA_OpenDevice W device [])) ->
  let run := QSA_OpenDevice W device [] in
  fmt = format (spec device) /\
  (forall pre f post,
     candidates closefmts = pre ++ f :: post ->
     (forall x, In x pre -> ~ In x sdl_table_formats) ->
     In f sdl_table_formats ->
     format (spec (snd (fst run))) = f /\
     exists pcm cparams ret,
       In (snd_pcm_plugin_params pcm cparams ret) (snd run) /\
       OpenDevice_CHECKFMT f = Some (cp_format cparams)) /\
  ((forall x, In x (candidates closefmts) -> ~ In x sdl_table_formats) ->
     fst (fst run) = false /\
     spec (snd (fst run)) = spec device /\
     (exists before,
        snd run =
          SDL_SetError "QSA: Couldn't find any hardware audio formats" None
          :: before) /\
     count_events is_params (snd run) = 0%nat).
Proof.
  intros Hin run.
  destruct (QSA_OpenDevice_negotiation W device fmt closefmts Hin)
    as [Hfmt0 [Hfail Hsel]].
  fold run in Hfail, Hsel. split; [exact Hfmt0 | ]. split.
  - intros pre f post Hcand Hpre Hf.
    destruct (OpenDevice_CHECKFMT f) as [q | ] eqn:Hq.
    2:{ apply CHECKFMT_none_not_in_table in Hq. contradiction. }
    assert (Hnz : f <> 0).
    { clear - Hcand. revert pre Hcand.
      induction closefmts as [| x rest IH]; intros pre Hcand; simpl in Hcand.
      - destruct pre; discriminate.
      - destruct (Z.eqb_spec x 0) as [Hz | Hx].
        + destruct pre; discriminate.
        + destruct pre as [| p pre]; simpl in Hcand;
            injection Hcand as Hh Ht; [congruence | eauto]. }
    pose proof (OpenDevice_closest_first closefmts
                  (cp_format QSA_InitAudioParams) pre post f q
                  Hcand Hpre Hq) as Hfound.
    rewrite Hfound in Hsel. cbn [fst snd] in Hsel.
    destruct (Hsel Hnz) as [Hfmt [pcm [cparams [ret [Hp [Hc _]]]]]].
    split; [exact Hfmt | ].
    exists pcm, cparams, ret. split; [exact Hp | ]. now rewrite Hc.
  - intros Hnone.
    rewrite (OpenDevice_closest_none closefmts _ Hnone) in Hfail.
    destruct (Hfail eq_refl) as [Hr [Hs [[before Hb] Hn]]].
    repeat split; try assumption. eexists. exact Hb.
Qed.

(** C8, as amended.  A generic format that is not in the table is never
    selected by the negotiation, and when no candidate is in the table
    [QSA_OpenDevice] fails.  [QnxFormatToSDLFormat] maps every native
    format that is not in the table to the default [SDL_AUDIO_S16]; with
    [SDL_AUDIO_S16] the native-endian name of one of the two 16-bit
    formats, that is a format of the table. *)
Theorem formats_outside_table :
  (forall closefmts c,
     fst (OpenDevice_closest closefmts c) = 0 \/
     In (fst (OpenDevice_closest closefmts c)) sdl_table_formats) /\
  (forall device fmt closefmts,
     In (SDL_ClosestAudioFormats fmt closefmts)
        (snd (QSA_OpenDevice W device [])) ->
     (forall x, In x (candidates closefmts) -> ~ In x sdl_table_formats) ->
     fst (fst (QSA_OpenDevice W device [])) = false) /\
  (forall q, ~ In q qsa_table_formats ->
     QnxFormatToSDLFormat q = SDL_AUDIO_S16) /\
  (SDL_AUDIO_S16 = SDL_AUDIO_S16LSB \/ SDL_AUDIO_S16 = SDL_AUDIO_S16MSB ->
   forall q, ~ In q qsa_table_formats ->
     In (QnxFormatToSDLFormat q) sdl_table_formats).
Proof.
  split; [ | split; [ | split]].
  - intros closefmts c.
    destruct (OpenDevice_closest_in_table closefmts c) as [Hz | [_ [Ht _]]];
      [now left | now right].
  - intros device fmt closefmts Hin Hnone.
    destruct (QSA_OpenDevice_negotiation W device fmt closefmts Hin)
      as [_ [Hfail _]].
    rewrite (OpenDevice_closest_none closefmts _ Hnone) in Hfail.
    now destruct (Hfail eq_refl).
  - exact QnxFormat_unlisted.
  - intros Halias q Hq. rewrite (QnxFormat_unlisted q Hq).
    unfold sdl_table_formats. simpl.
    destruct Halias as [-> | ->]; tauto.
Qed.

End NegotiationClaims.

Lemma QSA_OpenDevice_selects_first_mappable_witness :
  let Wn := open_world [0x0010; 0x8010; 0x8020] (0, 7) in
  In (SDL_ClosestAudioFormats 0x0010 [0x0010; 0x8010; 0x8020])
     (snd (@QSA_OpenDevice qnx_le Wn (closed_device 0x0010) [])) /\
  candidates [0x0010; 0x8010; 0x8020] = [0x0010] ++ 0x8010 :: [0x8020] /\
  (forall x, In x [0x0010] -> ~ In x (@sdl_table_formats qnx_le)) /\
  In 0x8010 (@sdl_table_formats qnx_le) /\
  format (spec (snd (fst (@QSA_OpenDevice qnx_le Wn
                            (closed_device 0x0010) [])))) = 0x8010.
Proof.
  intro Wn.
  assert (Hin : In (SDL_ClosestAudioFormats 0x0010 [0x0010; 0x8010; 0x8020])
                  (snd (@QSA_OpenDevice qnx_le Wn (closed_device 0x0010) []))).
  { vm_compute. tauto. }
  assert (Hpre : forall x, In x [0x0010] -> ~ In x (@sdl_table_formats qnx_le)).
  { intros x [<- | []]. vm_compute. intuition discriminate. }
  assert (Hf : In 0x8010 (@sdl_table_formats qnx_le)).
  { vm_compute. tauto. }
  split; [exact Hin | ]. split; [reflexivity | ]. split; [exact Hpre | ].
  split; [exact Hf | ].
  exact (proj1 (proj1 (proj2 (@QSA_OpenDevice_selects_first_mappable qnx_le
                                Wn (closed_device 0x0010) 0x0010
                                [0x0010; 0x8010; 0x8020] Hin))
                  [0x0010] 0x8010 [0x8020] eq_refl Hpre Hf)).
Defined.

(** C8, counterexample.  The native format 2 is not in the table;
    [QnxFormatToSDLFormat] maps it to 0x8010, the generic format
    [SDL_AUDIO_S16LSB] of the table. *)
Lemma QnxFormatToSDLFormat_unlisted_is_approximated :
  ~ In 2 (@qsa_table_formats qnx_le) /\
  @QnxFormatToSDLFormat qnx_le 2 = @SDL_AUDIO_S16LSB qnx_le /\
  In (@QnxFormatToSDLFormat qnx_le 2) (@sdl_table_formats qnx_le).
Proof.
  split; [vm_compute; intuition discriminate | ].
  split; [reflexivity | vm_compute; tauto].
Qed.

Lemma formats_outside_table_witness :
  ~ In 2 (@qsa_table_formats qnx_le) /\
  @QnxFormatToSDLFormat qnx_le 2 = @SDL_AUDIO_S16 qnx_le.
Proof.
  assert (Hq : ~ In 2 (@qsa_table_formats qnx_le))
    by (vm_compute; intuition discriminate).
  split; [exact Hq | ].
  exact (proj1 (proj2 (proj2 (@formats_outside_table qnx_le
                                (open_world [] (0, 7))))) 2 Hq).
Defined.

(** ** QSA_DetectDevices *)

Section DetectFacts.
Context {H : Headers}.
Variable W : Native.
Variable device_hidden_audio_handle : Z.

Let round := DetectDevices_round W device_hidden_audio_handle.

(** Every setup query of a round is made on the handle that line 372
    names, whatever [snd_pcm_open] has stored in [handle]. *)
Lemma DetectDevices_round_setup_handle (card deviceno : Z) (tr : trace) :
  exists new,
    snd (round card deviceno tr) = new ++ tr /\
    forallb (setup_on device_hidden_audio_handle) new = true.
Proof.
  unfold round, DetectDevices_round. step_monad.
  repeat match goal with
  | |- context [if ?c then _ else _] => destruct c; step_monad
  end;
  try (eexists [_]; split; [reflexivity | ]; reflexivity);
  try (eexists [_; _]; split; [reflexivity | ]; reflexivity);
  try (eexists [_; _; _; _]; split; [reflexivity | ];
       simpl; now rewrite Z.eqb_refl);
  try (eexists [_; _; _; _; _]; split; [reflexivity | ];
       simpl; now rewrite Z.eqb_refl).
Qed.

Lemma DetectDevices_card_setup_handle (fuel : nat) (card deviceno : Z)
    (tr : trace) :
  exists new,
    snd (DetectDevices_card W device_hidden_audio_handle fuel card deviceno tr)
      = new ++ tr /\
    forallb (setup_on device_hidden_audio_handle) new = true.
Proof.
  revert deviceno tr.
  induction fuel as [| fuel IH]; intros deviceno tr;
    cbn [DetectDevices_card].
  - now exists [].
  - unfold bind.
    destruct (DetectDevices_round_setup_handle card deviceno tr)
      as [new [Htr Hall]]. unfold round in Htr.
    destruct (DetectDevices_round W device_hidden_audio_handle card deviceno tr)
      as [e tr1]. cbn [snd] in Htr. subst tr1.
    destruct e.
    + now exists new.
    + destruct (IH ((deviceno + 1) mod 2 ^ 32) (new ++ tr))
        as [new' [Htr' Hall']].
      exists (new' ++ new). rewrite Htr', app_assoc. split; [reflexivity | ].
      rewrite forallb_app, Hall, Hall'. reflexivity.
Qed.

Lemma DetectDevices_cards_setup_handle (fuel : nat) (cards : list Z)
    (tr : trace) :
  exists new,
    snd (DetectDevices_cards W device_hidden_audio_handle fuel cards tr)
      = new ++ tr /\
    forallb (setup_on device_hidden_audio_handle) new = true.
Proof.
  revert tr. induction cards as [| card rest IH]; intros tr; simpl.
  - now exists [].
  - unfold bind.
    destruct (DetectDevices_card_setup_handle fuel card 0 tr)
      as [new [Htr Hall]].
    destruct (DetectDevices_card W device_hidden_audio_handle fuel card 0 tr)
      as [done tr1]. cbn [snd] in Htr. subst tr1.
    destruct done.
    + destruct (IH (new ++ tr)) as [new' [Htr' Hall']].
      exists (new' ++ new). rewrite Htr', app_assoc. split; [reflexivity | ].
      rewrite forallb_app, Hall, Hall'. reflexivity.
    + now exists new.
Qed.

(** A setup query that fails does not end the enumeration: the device
    is closed, reported without a spec, and the next device number is
    tried. *)
Lemma DetectDevices_round_setup_failed (card deviceno : Z) (tr : trace)
    (name : string) (pcm ret : Z) (cs : snd_pcm_channel_setup_t) :
  longname_at W (List.length tr) card = (EOK, name) ->
  open_at W (S (List.length tr)) card deviceno SND_PCM_OPEN_PLAYBACK
    = (EOK, pcm) ->
  setup_at W (S (S (List.length tr))) device_hidden_audio_handle
    SND_PCM_CHANNEL_PLAYBACK = (ret, cs) ->
  ret < 0 ->
  close_at W (S (S (S (List.length tr)))) pcm = EOK ->
  round card deviceno tr =
    (NextRound,
     SDL_AddAudioDevice false name deviceno None
       (Z.lor (card mod 2 ^ 32)
          (Z.shiftl (deviceno mod 2 ^ 32) 16 mod 2 ^ 32))
     :: snd_pcm_close pcm EOK
     :: snd_pcm_plugin_setup device_hidden_audio_handle
          SND_PCM_CHANNEL_PLAYBACK ret cs
     :: snd_pcm_open card deviceno SND_PCM_OPEN_PLAYBACK EOK pcm
     :: snd_card_get_longname card EOK name :: tr).
Proof.
  intros Hln Hop Hsu Hneg Hcl.
  unfold round, DetectDevices_round. step_monad.
  rewrite Hln. step_monad. rewrite Z.eqb_refl. step_monad.
  rewrite Hop. step_monad. rewrite Z.eqb_refl. step_monad.
  rewrite Hsu. step_monad. rewrite Hcl. rewrite Z.eqb_refl. step_monad.
  destruct (Z.ltb_spec ret 0); [reflexivity | lia].
Qed.

End DetectFacts.

(** C6, the failing input.  One card, 0, with one device, 0, which
    [snd_pcm_open] opens as the handle 7; the handle that line 372 names
    is 99.  The setup query goes to the handle 99, not to the handle 7
    that was opened and is closed right after.  The handle 7 has a
    setup to report (the second run below, where line 372 happens to
    name it, shows it), but the device is added without a spec. *)
Theorem DetectDevices_setup_on_other_handle :
  events_of (@DetectDevices_cards qnx_le detect_world 99 3 [0]) =
    [snd_card_get_longname 0 0 "card";
     snd_pcm_open 0 0 1 0 7;
     snd_pcm_plugin_setup 99 1 (-1)
       {| cs_format := 0; cs_channels := 0; cs_rate := 0; cs_frag_size := 0 |};
     snd_pcm_close 7 0;
     SDL_AddAudioDevice false "card" 0 None 0;
     snd_card_get_longname 0 0 "card";
     snd_pcm_open 0 1 1 (-2) 0] /\
  events_of (@DetectDevices_cards qnx_le detect_world 7 3 [0]) =
    [snd_card_get_longname 0 0 "card";
     snd_pcm_open 0 0 1 0 7;
     snd_pcm_plugin_setup 7 1 0 stereo_setup;
     snd_pcm_close 7 0;
     SDL_AddAudioDevice false "card" 0
       (Some {| format := 0x8010; channels := 2; freq := 48000 |}) 0;
     snd_card_get_longname 0 0 "card";
     snd_pcm_open 0 1 1 (-2) 0].
Proof. split; reflexivity. Qed.

(** ** The stalled-device return in the loop of the spec *)

Section SpecLoop.
Context {H : Headers}.
Variable W : Native.

(** The property of C7 also holds with the block as the statement of
    the loop: a write that transfers nothing with [EAGAIN] while
    [timeout_on_wait] is set is the last call, and the result is
    success. *)
Lemma play_retry_loop_stalled (fuel : nat) (device : SDL_AudioDevice)
    (h : SDL_PrivateAudioData) (buffer towrite : Z) (tr : trace) :
  timeout_on_wait h = true ->
  exists new,
    snd (play_retry_loop W fuel device h buffer towrite tr) = new ++ tr /\
    forall pcm buf size,
      In (snd_pcm_plugin_write pcm buf size 0 EAGAIN) new ->
      fst (play_retry_loop W fuel device h buffer towrite tr) = Some true /\
      exists before, new = snd_pcm_plugin_write pcm buf size 0 EAGAIN :: before.
Proof.
  intros Hflag. revert buffer towrite tr.
  induction fuel as [| fuel IH]; intros buffer towrite tr;
    cbn [play_retry_loop].
  - exists []. split; [reflexivity | intros ? ? ? []].
  - destruct (Z.ltb_spec 0 towrite) as [Hpos | Hnpos].
    2:{ exists []. split; [reflexivity | intros ? ? ? []]. }
    step_monad.
    destruct (shutdown_at W (List.length tr)) eqn:Hs; cbn [negb].
    { exists [SDL_GetAtomicInt_shutdown true]. split; [reflexivity | ].
      intros ? ? ? [Hin | []]. discriminate. }
    set (tr1 := SDL_GetAtomicInt_shutdown false :: tr).
    destruct (PlayDevice_block_trace W device h buffer towrite tr1)
      as [later [Htr Hlater]].
    pose proof (PlayDevice_block_stalled W device h buffer towrite tr1 Hflag)
      as Hstall.
    destruct (write_at W (List.length tr1) (audio_handle h) buffer towrite)
      as [bw errno] eqn:Hwr.
    destruct (PlayDevice_block W device h buffer towrite tr1) as [c tr2].
    cbn [fst snd] in Htr, Hstall. subst tr2.
    assert (Hblock : forall pcm buf size,
              In (snd_pcm_plugin_write pcm buf size 0 EAGAIN)
                 (later ++ [snd_pcm_plugin_write (audio_handle h) buffer
                              towrite bw errno;
                            SDL_GetAtomicInt_shutdown false]) ->
              c = Return true /\ later = [] /\
              pcm = audio_handle h /\ buf = buffer /\ size = towrite /\
              bw = 0 /\ errno = EAGAIN).
    { intros pcm buf size Hin.
      apply in_app_or in Hin as [Hin | [Heq | [Heq | []]]].
      - pose proof (forallb_In _ _ _ Hlater Hin) as Hf. discriminate.
      - injection Heq as <- <- <- -> ->.
        destruct (Hstall eq_refl) as [Hsnd [_ Hret]].
        split; [apply Hret; lia | ].
        split; [ | repeat split].
        apply (app_inv_tail_iff
                 (snd_pcm_plugin_write (audio_handle h) buffer towrite 0
                    EAGAIN :: tr1) later []).
        exact Hsnd.
      - discriminate. }
    destruct c as [r | b t | b t].
    + exists (later ++ [snd_pcm_plugin_write (audio_handle h) buffer towrite
                          bw errno; SDL_GetAtomicInt_shutdown false]).
      split; [now rewrite <- app_assoc | ].
      intros pcm buf size Hin.
      destruct (Hblock pcm buf size Hin)
        as [Hc [-> [-> [-> [-> [-> ->]]]]]].
      injection Hc as ->. split; [reflexivity | ]. eexists. reflexivity.
    + destruct (IH b t (later ++ snd_pcm_plugin_write (audio_handle h) buffer
                                   towrite bw errno :: tr1))
        as [new' [Htr' Hnew']].
      exists (new' ++ later ++ [snd_pcm_plugin_write (audio_handle h) buffer
                                  towrite bw errno;
                                SDL_GetAtomicInt_shutdown false]).
      split.
      { rewrite Htr'. unfold tr1. now rewrite <- !app_assoc. }
      intros pcm buf size Hin. apply in_app_or in Hin as [Hin | Hin].
      * destruct (Hnew' pcm buf size Hin) as [Hr [before ->]].
        split; [exact Hr | ]. eexists. reflexivity.
      * destruct (Hblock pcm buf size Hin) as [Hc _]. discriminate.
    + destruct (IH b t (later ++ snd_pcm_plugin_write (audio_handle h) buffer
                                   towrite bw errno :: tr1))
        as [new' [Htr' Hnew']].
      exists (new' ++ later ++ [snd_pcm_plugin_write (audio_handle h) buffer
                                  towrite bw errno;
                                SDL_GetAtomicInt_shutdown false]).
      split.
      { rewrite Htr'. unfold tr1. now rewrite <- !app_assoc. }
      intros pcm buf size Hin. apply in_app_or in Hin as [Hin | Hin].
      * destruct (Hnew' pcm buf size Hin) as [Hr [before ->]].
        split; [exact Hr | ]. eexists. reflexivity.
      * destruct (Hblock pcm buf size Hin) as [Hc _]. discriminate.
Qed.

End SpecLoop.

(** * Further properties *)

(** ** Opening and closing *)

Ltac split_ifs :=
  repeat match goal with
  | |- context [if ?c then _ else _] =>
      let E := fresh "Hc" in destruct c eqn:E; step_monad
  end.

Ltac step_in Hyp :=
  cbv beta iota zeta delta [bind call emit ret QSA_SetError] in Hyp;
  cbn [fst snd List.length] in Hyp.

Section OpenFacts.
Context {H : Headers}.
Variable W : Native.



(** X3.  [QSA_OpenDevice] never uses the capture direction: a
    recording device is refused with an error and no other call, and
    every [snd_pcm_open], setup, descriptor, prepare and parameter
    submission of any open is for playback. *)
Theorem QSA_OpenDevice_playback_only (device : SDL_AudioDevice) :
  (recording device = true ->
     QSA_OpenDevice W device [] =
       ((false, device),
        [SDL_SetError "SDL recording support isn't available on QNX atm"
           None])) /\
  (forall e, In e (snd (QSA_OpenDevice W device [])) ->
     match e with
     | snd_pcm_open _ _ mode _ _ => mode = SND_PCM_OPEN_PLAYBACK
     | snd_pcm_plugin_setup _ channel _ _ => channel = SND_PCM_CHANNEL_PLAYBACK
     | snd_pcm_file_descriptor _ channel _ => channel = SND_PCM_CHANNEL_PLAYBACK
     | snd_pcm_plugin_prepare _ channel _ => channel = SND_PCM_CHANNEL_PLAYBACK
     | snd_pcm_plugin_params _ cparams _ =>
         cp_channel cparams = SND_PCM_CHANNEL_PLAYBACK
     | _ => True
     end).
Proof.
  split.
  - intros Hrec. unfold QSA_OpenDevice. rewrite Hrec. reflexivity.
  - intros e. unfold QSA_OpenDevice.
    destruct (recording device) eqn:Hrec; step_monad.
    + intros [<- | []]. exact I.
    + split_ifs; intros Hin; cbn [In] in Hin;
        repeat (destruct Hin as [<- | Hin]; [try exact I; try reflexivity | ]);
        try contradiction.
Qed.

(** What a close releases. *)
Lemma QSA_CloseDevice_releases (device : SDL_AudioDevice)
    (h : SDL_PrivateAudioData) (tr : trace) :
  hidden device = Some h ->
  hidden (fst (QSA_CloseDevice W device tr)) = None /\
  In (SDL_free_pcm_buf (pcm_buf h)) (snd (QSA_CloseDevice W device tr)) /\
  In SDL_free_hidden (snd (QSA_CloseDevice W device tr)) /\
  (audio_handle h <> 0 ->
   exists r, In (snd_pcm_close (audio_handle h) r)
               (snd (QSA_CloseDevice W device tr))).
Proof.
  intros Hh. unfold QSA_CloseDevice. rewrite Hh. step_monad.
  destruct (Z.eqb_spec (audio_handle h) 0) as [Hz | Hnz]; cbn [negb];
    step_monad.
  - repeat split; simpl; tauto.
  - destruct (NTO_VERSION <? 710); step_monad;
      repeat split; simpl; try tauto; intros _; eexists; tauto.
Qed.

(** What an open that got past [snd_pcm_open] holds. *)
Lemma QSA_OpenDevice_holds (device : SDL_AudioDevice) :
  recording device = false ->
  calloc_at W 0%nat = true ->
  0 <= fst (open_at W 1%nat
              (Z.land (handle device mod 2 ^ 32) 65535)
              (Z.land (Z.shiftr (handle device mod 2 ^ 32) 16) 65535)
              SND_PCM_OPEN_PLAYBACK) ->
  exists h,
    hidden (snd (fst (QSA_OpenDevice W device []))) = Some h /\
    (forall c d m ret pcm,
       In (snd_pcm_open c d m ret pcm) (snd (QSA_OpenDevice W device [])) ->
       pcm = audio_handle h) /\
    (forall size buf,
       In (SDL_malloc size buf) (snd (QSA_OpenDevice W device [])) ->
       buf = pcm_buf h) /\
    (forall pcm cparams ret,
       In (snd_pcm_plugin_params pcm cparams ret)
          (snd (QSA_OpenDevice W device [])) ->
       cparams =
         set_cparams_format QSA_InitAudioParams
           (snd (OpenDevice_closest (closest_at W 2%nat (format (spec device)))
                   (cp_format QSA_InitAudioParams)))
           (channels (spec device)) (freq (spec device)) /\
       format (spec (snd (fst (QSA_OpenDevice W device [])))) =
         fst (OpenDevice_closest (closest_at W 2%nat (format (spec device)))
                (cp_format QSA_InitAudioParams)) /\
       fst (OpenDevice_closest (closest_at W 2%nat (format (spec device)))
              (cp_format QSA_InitAudioParams)) <> 0).
Proof.
  intros Hrec Hca. unfold QSA_OpenDevice.
  rewrite Hrec. step_monad. rewrite Hca. cbn [negb]. step_monad.
  set (cardno := Z.land (handle device mod 2 ^ 32) 65535).
  set (deviceno := Z.land (Z.shiftr (handle device mod 2 ^ 32) 16) 65535).
  set (op := open_at W 1%nat cardno deviceno SND_PCM_OPEN_PLAYBACK).
  intros Hop.
  destruct (Z.ltb_spec (fst op) 0) as [Hneg | _]; [lia | ].
  step_monad.
  set (cl := closest_at W 2%nat (format (spec device))).
  set (found := OpenDevice_closest cl (cp_format QSA_InitAudioParams)).
  destruct (Z.eqb_spec (fst found) 0) as [Hz | Hnz]; step_monad.
  { eexists. split; [reflexivity | ]. split; [ | split].
    - intros c d m ret pcm Hin. cbn [In] in Hin.
      destruct Hin as [Hin | [Hin | [Hin | [Hin | []]]]];
        try discriminate Hin.
      now injection Hin as _ _ _ _ <-.
    - intros size buf Hin. cbn [In] in Hin.
      destruct Hin as [Hin | [Hin | [Hin | [Hin | []]]]]; discriminate Hin.
    - intros pcm cparams ret Hin. cbn [In] in Hin.
      destruct Hin as [Hin | [Hin | [Hin | [Hin | []]]]]; discriminate Hin. }
  set (cparams1 := set_cparams_format _ _ _ _).
  set (spec1 := set_format _ _).
  set (rp := params_at W 3%nat (snd op) cparams1).
  assert (Hdone : forall (tail : list event) (buf : Z),
            (forall e, In e tail ->
               match e with
               | snd_pcm_open _ _ _ _ _ | snd_pcm_plugin_params _ _ _ => False
               | SDL_malloc _ b => b = buf
               | _ => True
               end) ->
            let tr := tail ++
                      [snd_pcm_plugin_params (snd op) cparams1 rp;
                       SDL_ClosestAudioFormats (format (spec device)) cl;
                       snd_pcm_open cardno deviceno SND_PCM_OPEN_PLAYBACK
                         (fst op) (snd op);
                       SDL_calloc_hidden true] in
            (forall c d m ret pcm,
               In (snd_pcm_open c d m ret pcm) tr -> pcm = snd op) /\
            (forall size b, In (SDL_malloc size b) tr -> b = buf) /\
            (forall pcm cparams ret,
               In (snd_pcm_plugin_params pcm cparams ret) tr ->
               cparams = cparams1 /\ fst found = fst found /\ fst found <> 0)).
  { intros tail buf Htail tr. subst tr. split; [ | split].
    - intros c d m ret pcm Hin. apply in_app_or in Hin as [Hin | Hin].
      + now apply Htail in Hin.
      + cbn [In] in Hin.
        repeat (destruct Hin as [Hin | Hin];
                [try discriminate Hin; now injection Hin as _ _ _ _ <- | ]).
        contradiction.
    - intros size b Hin. apply in_app_or in Hin as [Hin | Hin].
      + now apply Htail in Hin.
      + cbn [In] in Hin.
        repeat (destruct Hin as [Hin | Hin]; [discriminate Hin | ]).
        contradiction.
    - intros pcm cparams ret Hin. apply in_app_or in Hin as [Hin | Hin].
      + now apply Htail in Hin.
      + cbn [In] in Hin.
        repeat (destruct Hin as [Hin | Hin];
                [try discriminate Hin; injection Hin as _ <- _;
                 now repeat split | ]).
        contradiction. }
  destruct (rp <? 0); step_monad.
  { eexists. split; [reflexivity | ]. cbn [audio_handle pcm_buf spec format].
    apply (Hdone [_] 0). intros e [<- | []]; exact I. }
  set (su := setup_at W 4%nat (snd op) SND_PCM_CHANNEL_PLAYBACK).
  destruct (fst su <? 0); step_monad.
  { eexists. split; [reflexivity | ]. cbn [audio_handle pcm_buf spec format].
    apply (Hdone [_; _] 0). intros e [<- | [<- | []]]; exact I. }
  cbn [buffer_size silence_value].
  set (size0 := fst (updated_format W _)).
  set (silence0 := snd (updated_format W _)).
  set (buf0 := malloc_at W 5%nat size0).
  destruct (Z.eqb_spec buf0 0) as [Hnull | Hbuf]; step_monad.
  { eexists. split; [reflexivity | ]. cbn [audio_handle pcm_buf spec format].
    apply (Hdone [_; _] 0). intros e [<- | [<- | []]]; [exact Hnull | exact I]. }
  set (fd0 := file_descriptor_at W 7%nat (snd op) SND_PCM_CHANNEL_PLAYBACK).
  destruct (fd0 <? 0); step_monad.
  { eexists. split; [reflexivity | ].
    cbn [set_hidden audio_handle pcm_buf spec format].
    apply (Hdone [_; _; _; _; _] buf0).
    intros e [<- | [<- | [<- | [<- | [<- | []]]]]]; try exact I; reflexivity. }
  destruct (prepare_at W 8%nat (snd op) SND_PCM_CHANNEL_PLAYBACK <? 0);
    step_monad.
  - eexists. split; [reflexivity | ].
    cbn [set_hidden audio_handle pcm_buf spec format].
    apply (Hdone [_; _; _; _; _; _] buf0).
    intros e [<- | [<- | [<- | [<- | [<- | [<- | []]]]]]];
      try exact I; reflexivity.
  - eexists. split; [reflexivity | ].
    cbn [set_hidden audio_handle pcm_buf spec format].
    apply (Hdone [_; _; _; _; _] buf0).
    intros e [<- | [<- | [<- | [<- | [<- | []]]]]]; try exact I; reflexivity.
Qed.

(** X5.  Whatever [QSA_OpenDevice] did, succeeding or failing at any
    step, a [QSA_CloseDevice] right after it leaves nothing behind:
    [hidden] is NULL again, the handle that [snd_pcm_open] stored is
    closed, the buffer that was allocated is freed, and the private
    block is freed. *)
Theorem QSA_OpenDevice_then_CloseDevice_releases (device : SDL_AudioDevice) :
  let opened := QSA_OpenDevice W device [] in
  let closed := QSA_CloseDevice W (snd (fst opened)) (snd opened) in
  hidden (fst closed) = None /\
  (forall c d m ret pcm,
     In (snd_pcm_open c d m ret pcm) (snd opened) -> 0 <= ret -> pcm <> 0 ->
     exists r, In (snd_pcm_close pcm r) (snd closed)) /\
  (forall size buf,
     In (SDL_malloc size buf) (snd opened) ->
     In (SDL_free_pcm_buf buf) (snd closed)) /\
  (In (SDL_calloc_hidden true) (snd opened) ->
     In SDL_free_hidden (snd closed)).
Proof.
  cbv zeta.
  destruct (recording device) eqn:Hrec.
  { unfold QSA_OpenDevice. rewrite Hrec. step_monad.
    split.
    - destruct (hidden device) as [h | ] eqn:Hh.
      + now destruct (QSA_CloseDevice_releases device h
                        [SDL_SetError
                           "SDL recording support isn't available on QNX atm"
                           None] Hh).
      + unfold QSA_CloseDevice. rewrite Hh. exact Hh.
    - repeat split; intros; simpl in *; intuition discriminate. }
  destruct (calloc_at W 0%nat) eqn:Hca.
  2:{ unfold QSA_OpenDevice. rewrite Hrec. step_monad. rewrite Hca.
      cbn [negb]. step_monad.
      unfold QSA_CloseDevice. cbn [set_hidden hidden]. unfold ret.
      cbn [fst snd].
      split; [reflexivity | ].
      repeat split; intros; simpl in *; intuition discriminate. }
  set (op := open_at W 1%nat
               (Z.land (handle device mod 2 ^ 32) 65535)
               (Z.land (Z.shiftr (handle device mod 2 ^ 32) 16) 65535)
               SND_PCM_OPEN_PLAYBACK).
  destruct (Z.lt_ge_cases (fst op) 0) as [Hneg | Hpos].
  { unfold QSA_OpenDevice. rewrite Hrec. step_monad. rewrite Hca.
    cbn [negb]. step_monad. fold op.
    destruct (Z.ltb_spec (fst op) 0) as [_ | Hge]; [ | lia]. step_monad.
    unfold QSA_CloseDevice.
    cbn [set_hidden hidden zeroed_hidden audio_handle pcm_buf].
    step_monad. cbn [negb Z.eqb]. step_monad.
    split; [reflexivity | ]. repeat split.
    - intros c d m ret pcm Hin Hret Hp. simpl in Hin.
      destruct Hin as [Hin | [Hin | [Hin | []]]]; try discriminate.
      injection Hin as _ _ _ <- _. lia.
    - intros size buf Hin. simpl in Hin. intuition discriminate.
    - intros _. simpl. tauto. }
  destruct (QSA_OpenDevice_holds device Hrec Hca Hpos)
    as [h [Hh [Hopen [Hmalloc _]]]].
  destruct (QSA_CloseDevice_releases _ h (snd (QSA_OpenDevice W device [])) Hh)
    as [Hgone [Hbuf [Hstate Hhandle]]].
  split; [exact Hgone | ]. split; [ | split].
  - intros c d m ret pcm Hin Hret Hp.
    rewrite (Hopen _ _ _ _ _ Hin) in Hp |- *. now apply Hhandle.
  - intros size buf Hin. now rewrite (Hmalloc size buf Hin).
  - intros _. exact Hstate.
Qed.



(** X4.  The parameters that [QSA_OpenDevice] submits are the defaults
    of [QSA_InitAudioParams] (playback, block mode, start on data, stop
    on stop, interleaved, one fragment of 4096 bytes) with the channel
    count and the rate of the desired spec and the native format that
    the table gives for the format selected. *)
Theorem QSA_OpenDevice_submitted_params (device : SDL_AudioDevice)
    (pcm : Z) (cparams : snd_pcm_channel_params_t) (ret : Z) :
  In (snd_pcm_plugin_params pcm cparams ret)
     (snd (QSA_OpenDevice W device [])) ->
  cp_channel cparams = SND_PCM_CHANNEL_PLAYBACK /\
  cp_mode cparams = SND_PCM_MODE_BLOCK /\
  cp_start_mode cparams = SND_PCM_START_DATA /\
  cp_stop_mode cparams = SND_PCM_STOP_STOP /\
  cp_interleave cparams = 1 /\
  cp_frag_size cparams = 4096 /\
  cp_frags_min cparams = 1 /\
  cp_frags_max cparams = 1 /\
  cp_voices cparams = channels (spec device) /\
  cp_rate cparams = freq (spec device) /\
  OpenDevice_CHECKFMT (format (spec (snd (fst (QSA_OpenDevice W device [])))))
    = Some (cp_format cparams).
Proof.
  intros Hin.
  assert (Hreached : recording device = false /\ calloc_at W 0%nat = true /\
            0 <= fst (open_at W 1%nat
                        (Z.land (handle device mod 2 ^ 32) 65535)
                        (Z.land (Z.shiftr (handle device mod 2 ^ 32) 16) 65535)
                        SND_PCM_OPEN_PLAYBACK)).
  { revert Hin. unfold QSA_OpenDevice.
    destruct (recording device) eqn:Hrec; step_monad.
    { intros [Hin | []]. discriminate. }
    destruct (calloc_at W 0%nat) eqn:Hca; cbn [negb]; step_monad.
    2:{ intros [Hin | []]. discriminate. }
    destruct (Z.ltb_spec (fst (open_at W 1%nat
                (Z.land (handle device mod 2 ^ 32) 65535)
                (Z.land (Z.shiftr (handle device mod 2 ^ 32) 16) 65535)
                SND_PCM_OPEN_PLAYBACK)) 0) as [Hneg | Hpos]; step_monad.
    { intros [Hin | [Hin | [Hin | []]]]; discriminate. }
    intros _. now repeat split. }
  destruct Hreached as [Hrec [Hca Hop]].
  destruct (QSA_OpenDevice_holds device Hrec Hca Hop)
    as [h [_ [_ [_ Hparams]]]].
  destruct (Hparams pcm cparams ret Hin) as [-> [Hfmt Hnz]].
  rewrite Hfmt.
  destruct (OpenDevice_closest_in_table
              (closest_at W 2%nat (format (spec device)))
              (cp_format QSA_InitAudioParams)) as [Hz | [_ [_ Hmap]]];
    [contradiction | ].
  now repeat split.
Qed.


(** When the loop over the candidates ends at the terminator, no
    candidate is in the table. *)
Lemma closest_zero_none (closefmts : list Z) (c : Z) :
  fst (OpenDevice_closest closefmts c) = 0 ->
  forall x, In x (candidates closefmts) -> ~ In x sdl_table_formats.
Proof.
  induction closefmts as [| a rest IH]; simpl; [easy | ].
  destruct (Z.eqb_spec a 0) as [Hz | Hnz]; [easy | ].
  destruct (OpenDevice_CHECKFMT a) as [q | ] eqn:Ha; simpl.
  - intros Hz. contradiction.
  - intros Hz x [<- | Hx].
    + now apply CHECKFMT_none_not_in_table.
    + now apply IH.
Qed.

(** X2.  When [QSA_OpenDevice] returns false, its last call is the one
    that failed: a recording device is refused before any call; an
    allocation that fails (private block, buffer) is followed by
    nothing, not even an error report; a QSA call that fails with a
    negative status is followed by the error report that names it, and
    nothing else; and without a candidate in the table the error of line
    246 follows the query for the closest formats. *)
Theorem QSA_OpenDevice_failure (device device' : SDL_AudioDevice)
    (tr : trace) :
  QSA_OpenDevice W device [] = ((false, device'), tr) ->
  (recording device = true /\ device' = device /\
   tr = [SDL_SetError "SDL recording support isn't available on QNX atm"
           None]) \/
  (hidden device' = None /\ tr = [SDL_calloc_hidden false]) \/
  (exists c d m ret pcm before,
     ret < 0 /\ hidden device' = Some zeroed_hidden /\
     tr = SDL_SetError "QSA: snd_pcm_open() failed: %s" (Some ret)
          :: snd_pcm_open c d m ret pcm :: before) \/
  (exists fmt closefmts before,
     (forall x, In x (candidates closefmts) -> ~ In x sdl_table_formats) /\
     tr = SDL_SetError "QSA: Couldn't find any hardware audio formats" None
          :: SDL_ClosestAudioFormats fmt closefmts :: before) \/
  (exists pcm cparams ret before,
     ret < 0 /\
     tr = SDL_SetError "QSA: snd_pcm_plugin_params() failed: %s" (Some ret)
          :: snd_pcm_plugin_params pcm cparams ret :: before) \/
  (exists pcm ch ret cs before,
     ret < 0 /\
     tr = SDL_SetError "QSA: Unable to setup channel" None
          :: snd_pcm_plugin_setup pcm ch ret cs :: before) \/
  (exists size before, tr = SDL_malloc size 0 :: before) \/
  (exists pcm ch fd before,
     fd < 0 /\
     tr = SDL_SetError "QSA: snd_pcm_file_descriptor() failed: %s" (Some fd)
          :: snd_pcm_file_descriptor pcm ch fd :: before) \/
  (exists pcm ch ret before,
     ret < 0 /\
     tr = SDL_SetError "QSA: snd_pcm_plugin_prepare() failed: %s" (Some ret)
          :: snd_pcm_plugin_prepare pcm ch ret :: before).
Proof.
  intros Hrun. unfold QSA_OpenDevice in Hrun.
  destruct (recording device) eqn:Hrec; step_in Hrun.
  { injection Hrun as <- <-. left. now repeat split. }
  right.
  destruct (calloc_at W 0%nat) eqn:Hca; cbn [negb] in Hrun; step_in Hrun.
  2:{ injection Hrun as <- <-. left. now split. }
  right.
  set (op := open_at W 1%nat _ _ _) in Hrun.
  destruct (Z.ltb_spec (fst op) 0) as [Hop | Hop]; step_in Hrun.
  { injection Hrun as <- <-. left.
    do 6 eexists. split; [exact Hop | ]. split; reflexivity. }
  right.
  set (cl := closest_at W 2%nat (format (spec device))) in Hrun.
  destruct (Z.eqb_spec (fst (OpenDevice_closest cl
              (cp_format QSA_InitAudioParams))) 0) as [Hz | Hnz];
    step_in Hrun.
  { injection Hrun as <- <-. left.
    do 3 eexists. split; [ | reflexivity].
    exact (closest_zero_none cl _ Hz). }
  right.
  set (cparams1 := set_cparams_format _ _ _ _) in Hrun.
  destruct (Z.ltb_spec (params_at W 3%nat (snd op) cparams1) 0)
    as [Hp | Hp]; step_in Hrun.
  { injection Hrun as <- <-. left.
    do 4 eexists. split; [exact Hp | reflexivity]. }
  right.
  set (su := setup_at W 4%nat (snd op) SND_PCM_CHANNEL_PLAYBACK) in Hrun.
  destruct (Z.ltb_spec (fst su) 0) as [Hs | Hs]; step_in Hrun.
  { injection Hrun as <- <-. left.
    do 5 eexists. split; [exact Hs | reflexivity]. }
  right.
  cbn [buffer_size silence_value] in Hrun.
  set (size0 := fst (updated_format W _)) in Hrun.
  set (buf0 := malloc_at W 5%nat size0) in Hrun.
  destruct (Z.eqb_spec buf0 0) as [Hnull | Hbuf]; step_in Hrun.
  { injection Hrun as <- <-. left.
    do 2 eexists. rewrite Hnull. reflexivity. }
  right.
  set (fd0 := file_descriptor_at W 7%nat (snd op) SND_PCM_CHANNEL_PLAYBACK)
    in Hrun.
  destruct (Z.ltb_spec fd0 0) as [Hfd | Hfd]; step_in Hrun.
  { injection Hrun as <- <-. left.
    do 4 eexists. split; [exact Hfd | reflexivity]. }
  right.
  destruct (Z.ltb_spec (prepare_at W 8%nat (snd op) SND_PCM_CHANNEL_PLAYBACK)
              0) as [Hpr | Hpr]; step_in Hrun.
  - injection Hrun as <- <-.
    do 4 eexists. split; [exact Hpr | reflexivity].
  - discriminate.
Qed.

End OpenFacts.

(** ** Device handles and enumeration *)

Lemma pack_unpack (card deviceno : Z) :
  0 <= card <= 0xFFFF -> 0 <= deviceno <= 0xFFFF ->
  let sdlhandle :=
    Z.lor (card mod 2 ^ 32) (Z.shiftl (deviceno mod 2 ^ 32) 16 mod 2 ^ 32) in
  0 <= sdlhandle < 2 ^ 32 /\
  Z.land (sdlhandle mod 2 ^ 32) 0xFFFF = card /\
  Z.land (Z.shiftr (sdlhandle mod 2 ^ 32) 16) 0xFFFF = deviceno.
Proof.
  intros Hc Hd.
  rewrite (Z.mod_small card), (Z.mod_small deviceno) by lia.
  rewrite Z.shiftl_mul_pow2 by lia.
  rewrite (Z.mod_small (deviceno * 2 ^ 16)) by lia.
  assert (Hdisj : Z.land card (deviceno * 2 ^ 16) = 0).
  { apply Z.bits_inj'. intros n Hn.
    rewrite Z.land_spec, Z.bits_0.
    destruct (Z.lt_ge_cases n 16) as [Hlo | Hhi].
    - rewrite <- Z.shiftl_mul_pow2 by lia.
      rewrite Z.shiftl_spec_low by lia. apply andb_false_r.
    - replace card with (card mod 2 ^ 16) by (apply Z.mod_small; lia).
      rewrite Z.mod_pow2_bits_high by lia. reflexivity. }
  cbv zeta.
  rewrite <- (Z.lxor_lor _ _ Hdisj), <- (Z.add_nocarry_lxor _ _ Hdisj).
  assert (Hs : 0 <= card + deviceno * 2 ^ 16 < 2 ^ 32) by lia.
  split; [exact Hs | ].
  rewrite (Z.mod_small _ _ Hs).
  change 0xFFFF with (Z.ones 16).
  rewrite !Z.land_ones by lia. rewrite Z.shiftr_div_pow2 by lia.
  split.
  - rewrite Z.mod_add by lia. apply Z.mod_small. lia.
  - rewrite Z.div_add by lia. rewrite (Z.div_small card) by lia.
    apply Z.mod_small. lia.
Qed.

Section DetectMore.
Context {H : Headers}.
Variable W : Native.
Variable device_hidden_audio_handle : Z.

Let round := DetectDevices_round W device_hidden_audio_handle.
Let cards_loop := DetectDevices_cards W device_hidden_audio_handle.

(** A property of the events of every round that is kept when rounds
    follow one another holds of the events of the whole enumeration. *)
Lemma DetectDevices_cards_lift (C : Z -> Prop) (Q : list event -> Prop) :
  Q [] ->
  (forall l1 l2, Q l1 -> Q l2 -> Q (l2 ++ l1)) ->
  (forall card deviceno tr, C card ->
     exists new, snd (round card deviceno tr) = new ++ tr /\ Q new) ->
  forall fuel cards tr, Forall C cards ->
    exists new, snd (cards_loop fuel cards tr) = new ++ tr /\ Q new.
Proof.
  intros Hnil Happ Hround fuel.
  assert (Hcard : forall n card deviceno tr, C card ->
            exists new,
              snd (DetectDevices_card W device_hidden_audio_handle n card
                     deviceno tr) = new ++ tr /\ Q new).
  { induction n as [| n IH]; intros card deviceno tr Hc;
      cbn [DetectDevices_card].
    - now exists [].
    - unfold bind.
      destruct (Hround card deviceno tr Hc) as [new [Htr Hq]].
      unfold round in Htr.
      destruct (DetectDevices_round W device_hidden_audio_handle card
                  deviceno tr) as [e tr1]. cbn [snd] in Htr. subst tr1.
      destruct e.
      + now exists new.
      + destruct (IH card ((deviceno + 1) mod 2 ^ 32) (new ++ tr) Hc)
          as [new' [Htr' Hq']].
        exists (new' ++ new). rewrite Htr', app_assoc.
        split; [reflexivity | now apply Happ]. }
  unfold cards_loop.
  induction cards as [| card rest IH]; intros tr Hcs;
    cbn [DetectDevices_cards].
  - now exists [].
  - unfold bind. inversion Hcs as [| ? ? Hc Hrest]; subst.
    destruct (Hcard fuel card 0 tr Hc) as [new [Htr Hq]].
    destruct (DetectDevices_card W device_hidden_audio_handle fuel card 0 tr)
      as [done tr1]. cbn [snd] in Htr. subst tr1.
    destruct done.
    + destruct (IH (new ++ tr) Hrest) as [new' [Htr' Hq']].
      exists (new' ++ new). rewrite Htr', app_assoc.
      split; [reflexivity | now apply Happ].
    + now exists new.
Qed.

(** The events of one round, case by case. *)
Lemma DetectDevices_round_shape (card deviceno : Z) (tr : trace) :
  exists name rl,
    let ln := snd_card_get_longname card rl name in
    (rl <> EOK /\ round card deviceno tr = (Break, ln :: tr)) \/
    (rl = EOK /\
     exists ro pcm,
       let op := snd_pcm_open card deviceno SND_PCM_OPEN_PLAYBACK ro pcm in
       (ro <> EOK /\ ro = - ENOENT /\
        round card deviceno tr = (Break, op :: ln :: tr)) \/
       (ro <> EOK /\ ro <> - ENOENT /\
        round card deviceno tr = (NextRound, op :: ln :: tr)) \/
       (ro = EOK /\
        exists rs cs rc,
          let su := snd_pcm_plugin_setup device_hidden_audio_handle
                      SND_PCM_CHANNEL_PLAYBACK rs cs in
          let cl := snd_pcm_close pcm rc in
          (rc <> EOK /\
           round card deviceno tr = (NextRound, cl :: su :: op :: ln :: tr)) \/
          (rc = EOK /\
           round card deviceno tr =
             (NextRound,
              SDL_AddAudioDevice false name deviceno
                (if rs <? 0 then None
                 else Some {| format := QnxFormatToSDLFormat (cs_format cs);
                              channels := cs_channels cs;
                              freq := cs_rate cs |})
                (Z.lor (card mod 2 ^ 32)
                   (Z.shiftl (deviceno mod 2 ^ 32) 16 mod 2 ^ 32))
              :: cl :: su :: op :: ln :: tr)))).
Proof.
  unfold round, DetectDevices_round. step_monad.
  exists (snd (longname_at W (List.length tr) card)),
         (fst (longname_at W (List.length tr) card)).
  cbv zeta.
  destruct (Z.eqb_spec (fst (longname_at W (List.length tr) card)) EOK)
    as [Hl | Hl]; step_monad; [right | left; now split].
  split; [exact Hl | ].
  set (op := open_at W (S (List.length tr)) card deviceno
               SND_PCM_OPEN_PLAYBACK).
  exists (fst op), (snd op).
  destruct (Z.eqb_spec (fst op) EOK) as [Ho | Ho]; step_monad.
  - right. right. split; [exact Ho | ].
    set (su := setup_at W (S (S (List.length tr))) device_hidden_audio_handle
                 SND_PCM_CHANNEL_PLAYBACK).
    set (rc := close_at W (S (S (S (List.length tr)))) (snd op)).
    exists (fst su), (snd su), rc.
    destruct (Z.eqb_spec rc EOK) as [Hc | Hc]; step_monad.
    + right. now split.
    + left. now split.
  - destruct (Z.eqb_spec (fst op) (- ENOENT)) as [He | He]; step_monad.
    + left. now repeat split.
    + right. left. now repeat split.
Qed.


(** X8.  The enumeration leaves no device open: every successful
    [snd_pcm_open] is followed by one setup query and then by the
    [snd_pcm_close] of the handle it stored, also when the setup query
    fails and when the enumeration runs out of rounds. *)
Theorem DetectDevices_closes_every_handle (fuel : nat) (cards : list Z)
    (c d m pcm : Z) :
  In (snd_pcm_open c d m EOK pcm) (snd (cards_loop fuel cards [])) ->
  exists later earlier rs cs rc,
    snd (cards_loop fuel cards []) =
      later ++
      snd_pcm_close pcm rc
      :: snd_pcm_plugin_setup device_hidden_audio_handle
           SND_PCM_CHANNEL_PLAYBACK rs cs
      :: snd_pcm_open c d m EOK pcm :: earlier.
Proof.
  set (Q := fun new : list event =>
    forall c d m pcm,
      In (snd_pcm_open c d m EOK pcm) new ->
      exists later earlier rs cs rc,
        new = later ++
              snd_pcm_close pcm rc
              :: snd_pcm_plugin_setup device_hidden_audio_handle
                   SND_PCM_CHANNEL_PLAYBACK rs cs
              :: snd_pcm_open c d m EOK pcm :: earlier).
  assert (Hall : exists new,
            snd (cards_loop fuel cards []) = new ++ [] /\ Q new).
  { apply (DetectDevices_cards_lift (fun _ => True) Q);
      [ | | | apply Forall_forall; intros; exact I].
    - intros ? ? ? ? [].
    - intros l1 l2 H1 H2 c' d' m' p' Hin.
      apply in_app_or in Hin as [Hin | Hin].
      + destruct (H2 _ _ _ _ Hin) as [a [b [rs [cs [rc ->]]]]].
        exists a, (b ++ l1), rs, cs, rc.
        now rewrite <- app_assoc.
      + destruct (H1 _ _ _ _ Hin) as [a [b [rs [cs [rc ->]]]]].
        exists (l2 ++ a), b, rs, cs, rc.
        now rewrite <- app_assoc.
    - intros card deviceno tr _.
      destruct (DetectDevices_round_shape card deviceno tr)
        as [name [rl [[Hl Hr] | [Hl [ro [p [[Ho [_ Hr]] | [[Ho [_ Hr]] |
             [Ho [rs [cs [rc [[Hc Hr] | [Hc Hr]]]]]]]]]]]]]];
        rewrite Hr; cbn [snd].
      + exists [snd_card_get_longname card rl name].
        split; [reflexivity | ].
        intros ? ? ? ? [Hin | []]. discriminate.
      + eexists [_; _]. split; [reflexivity | ].
        intros ? ? ? ? [Hin | [Hin | []]]; try discriminate.
        injection Hin as _ _ _ Hro _. congruence.
      + eexists [_; _]. split; [reflexivity | ].
        intros ? ? ? ? [Hin | [Hin | []]]; try discriminate.
        injection Hin as _ _ _ Hro _. congruence.
      + eexists [_; _; _; _]. split; [reflexivity | ].
        intros ? ? ? ? [Hin | [Hin | [Hin | [Hin | []]]]]; try discriminate.
        injection Hin as <- <- <- _ <-. subst ro.
        exists [], [snd_card_get_longname card rl name], rs, cs, rc.
        reflexivity.
      + eexists [_; _; _; _; _]. split; [reflexivity | ].
        intros ? ? ? ? [Hin | [Hin | [Hin | [Hin | [Hin | []]]]]];
          try discriminate.
        injection Hin as <- <- <- _ <-. subst ro.
        eexists [_], [snd_card_get_longname card rl name], rs, cs, rc.
        reflexivity. }
  destruct Hall as [new [Htr Hq]]. rewrite app_nil_r in Htr.
  rewrite Htr. intros Hin. exact (Hq _ _ _ _ Hin).
Qed.

(** What is reported, and after which calls. *)
Lemma DetectDevices_reported (fuel : nat)
    (cards : list Z) (is_recording : bool) (name : string) (deviceno : Z)
    (pspec : option SDL_AudioSpec) (sdlhandle : Z) :
  In (SDL_AddAudioDevice is_recording name deviceno pspec sdlhandle)
     (snd (cards_loop fuel cards [])) ->
  is_recording = false /\
  exists card pcm rs cs later earlier,
    In card cards /\
    snd (cards_loop fuel cards []) =
      later ++
      SDL_AddAudioDevice false name deviceno pspec sdlhandle
      :: snd_pcm_close pcm EOK
      :: snd_pcm_plugin_setup device_hidden_audio_handle
           SND_PCM_CHANNEL_PLAYBACK rs cs
      :: snd_pcm_open card deviceno SND_PCM_OPEN_PLAYBACK EOK pcm
      :: snd_card_get_longname card EOK name :: earlier /\
    sdlhandle =
      Z.lor (card mod 2 ^ 32) (Z.shiftl (deviceno mod 2 ^ 32) 16 mod 2 ^ 32) /\
    pspec =
      (if rs <? 0 then None
       else Some {| format := QnxFormatToSDLFormat (cs_format cs);
                    channels := cs_channels cs;
                    freq := cs_rate cs |}).
Proof.
  set (Q := fun new : list event =>
    forall is_recording name deviceno pspec sdlhandle,
      In (SDL_AddAudioDevice is_recording name deviceno pspec sdlhandle) new ->
      is_recording = false /\
      exists card pcm rs cs later earlier,
        In card cards /\
        new =
          later ++
          SDL_AddAudioDevice false name deviceno pspec sdlhandle
          :: snd_pcm_close pcm EOK
          :: snd_pcm_plugin_setup device_hidden_audio_handle
               SND_PCM_CHANNEL_PLAYBACK rs cs
          :: snd_pcm_open card deviceno SND_PCM_OPEN_PLAYBACK EOK pcm
          :: snd_card_get_longname card EOK name :: earlier /\
        sdlhandle =
          Z.lor (card mod 2 ^ 32)
            (Z.shiftl (deviceno mod 2 ^ 32) 16 mod 2 ^ 32) /\
        pspec =
          (if rs <? 0 then None
           else Some {| format := QnxFormatToSDLFormat (cs_format cs);
                        channels := cs_channels cs;
                        freq := cs_rate cs |})).
  assert (Hall : exists new,
            snd (cards_loop fuel cards []) = new ++ [] /\ Q new).
  { apply (DetectDevices_cards_lift (fun card => In card cards) Q);
      [ | | | apply Forall_forall; intros; assumption].
    - intros ? ? ? ? ? [].
    - intros l1 l2 H1 H2 r n d p h Hin.
      apply in_app_or in Hin as [Hin | Hin].
      + destruct (H2 _ _ _ _ _ Hin)
          as [Hr [card [pcm [rs [cs [a [b [Hc [-> [Hh Hp]]]]]]]]]].
        split; [exact Hr | ].
        exists card, pcm, rs, cs, a, (b ++ l1).
        split; [exact Hc | ]. split; [ | now split].
        now rewrite <- app_assoc.
      + destruct (H1 _ _ _ _ _ Hin)
          as [Hr [card [pcm [rs [cs [a [b [Hc [-> [Hh Hp]]]]]]]]]].
        split; [exact Hr | ].
        exists card, pcm, rs, cs, (l2 ++ a), b.
        split; [exact Hc | ]. split; [ | now split].
        now rewrite <- app_assoc.
    - intros card dn tr Hcard.
      destruct (DetectDevices_round_shape card dn tr)
        as [nm [rl [[Hl Hr] | [Hl [ro [p [[Ho [_ Hr]] | [[Ho [_ Hr]] |
             [Ho [rs [cs [rc [[Hc Hr] | [Hc Hr]]]]]]]]]]]]]];
        rewrite Hr; cbn [snd].
      + eexists [_]. split; [reflexivity | ].
        intros ? ? ? ? ? [Hin | []]. discriminate.
      + eexists [_; _]. split; [reflexivity | ].
        intros ? ? ? ? ? [Hin | [Hin | []]]; discriminate.
      + eexists [_; _]. split; [reflexivity | ].
        intros ? ? ? ? ? [Hin | [Hin | []]]; discriminate.
      + eexists [_; _; _; _]. split; [reflexivity | ].
        intros ? ? ? ? ? [Hin | [Hin | [Hin | [Hin | []]]]]; discriminate.
      + eexists [_; _; _; _; _]. split; [reflexivity | ].
        intros ? ? ? ? ? [Hin | [Hin | [Hin | [Hin | [Hin | []]]]]];
          try discriminate.
        injection Hin as <- <- <- <- <-. subst rl ro rc.
        split; [reflexivity | ].
        exists card, p, rs, cs, [], []. now repeat split. }
  destruct Hall as [new [Htr Hq]]. rewrite app_nil_r in Htr.
  rewrite Htr. intros Hin. exact (Hq _ _ _ _ _ Hin).
Qed.

(** X9.  A device is reported only as a playback device, and only
    right after the name of its card was read, the device was opened for
    playback and closed again, each with [EOK].  The card is one of the
    cards enumerated, the handle reported packs the card and the device
    number, and the spec reported is what the setup query gave: none
    when the query failed, else its format through
    [QnxFormatToSDLFormat], its channels and its rate. *)
Theorem DetectDevices_reports_after_open_and_close (fuel : nat)
    (cards : list Z) (is_recording : bool) (name : string) (deviceno : Z)
    (pspec : option SDL_AudioSpec) (sdlhandle : Z) :
  In (SDL_AddAudioDevice is_recording name deviceno pspec sdlhandle)
     (snd (cards_loop fuel cards [])) ->
  is_recording = false /\
  exists card pcm rs cs later earlier,
    In card cards /\
    snd (cards_loop fuel cards []) =
      later ++
      SDL_AddAudioDevice false name deviceno pspec sdlhandle
      :: snd_pcm_close pcm EOK
      :: snd_pcm_plugin_setup device_hidden_audio_handle
           SND_PCM_CHANNEL_PLAYBACK rs cs
      :: snd_pcm_open card deviceno SND_PCM_OPEN_PLAYBACK EOK pcm
      :: snd_card_get_longname card EOK name :: earlier /\
    sdlhandle =
      Z.lor (card mod 2 ^ 32) (Z.shiftl (deviceno mod 2 ^ 32) 16 mod 2 ^ 32) /\
    pspec =
      (if rs <? 0 then None
       else Some {| format := QnxFormatToSDLFormat (cs_format cs);
                    channels := cs_channels cs;
                    freq := cs_rate cs |}).
Proof.
  intros Hin.
  exact (DetectDevices_reported fuel cards is_recording name deviceno pspec
           sdlhandle Hin).
Qed.


(** [QnxFormatToSDLFormat] has no value outside the table, once
    [SDL_AUDIO_S16] names one of the two 16-bit formats. *)
Lemma QnxFormatToSDLFormat_in_table (q : Z) :
  SDL_AUDIO_S16 = SDL_AUDIO_S16LSB \/ SDL_AUDIO_S16 = SDL_AUDIO_S16MSB ->
  In (QnxFormatToSDLFormat q) sdl_table_formats.
Proof.
  intros Halias. unfold QnxFormatToSDLFormat, sdl_table_formats.
  repeat match goal with
  | |- context [if ?c then _ else _] => destruct c
  end; simpl; try tauto.
  destruct Halias as [-> | ->]; tauto.
Qed.

(** X10.  With [SDL_AUDIO_S16] the name of one of the two 16-bit
    formats, the spec reported with a device always names one of the
    eight generic formats of the table, whatever native format the
    setup query returned. *)
Theorem DetectDevices_reported_format_in_table (fuel : nat)
    (cards : list Z) (is_recording : bool) (name : string) (deviceno : Z)
    (aspec : SDL_AudioSpec) (sdlhandle : Z) :
  SDL_AUDIO_S16 = SDL_AUDIO_S16LSB \/ SDL_AUDIO_S16 = SDL_AUDIO_S16MSB ->
  In (SDL_AddAudioDevice is_recording name deviceno (Some aspec) sdlhandle)
     (snd (cards_loop fuel cards [])) ->
  In (format aspec) sdl_table_formats.
Proof.
  intros Halias Hin.
  destruct (DetectDevices_reported fuel cards _ _ _ _ _ Hin)
    as [_ [card [pcm [rs [cs [later [earlier [_ [_ [_ Hp]]]]]]]]]].
  destruct (rs <? 0); [discriminate | ].
  injection Hp as ->. cbn [format].
  now apply QnxFormatToSDLFormat_in_table.
Qed.

(** X11.  Only a failing name query and the status [-ENOENT] end the
    loop over the device numbers of a card.  When every name query
    succeeds and every [snd_pcm_open] fails with another status, the
    loop is still running after any number of rounds, two calls per
    round. *)
Theorem DetectDevices_card_keeps_probing (fuel : nat) (card deviceno : Z)
    (tr : trace) :
  (forall t, fst (longname_at W t card) = EOK) ->
  (forall t d,
     fst (open_at W t card d SND_PCM_OPEN_PLAYBACK) <> EOK /\
     fst (open_at W t card d SND_PCM_OPEN_PLAYBACK) <> - ENOENT) ->
  fst (DetectDevices_card W device_hidden_audio_handle fuel card deviceno tr)
    = false /\
  List.length
    (snd (DetectDevices_card W device_hidden_audio_handle fuel card
            deviceno tr))
    = (2 * fuel + List.length tr)%nat.
Proof.
  intros Hname Hopen. revert deviceno tr.
  induction fuel as [| fuel IH]; intros deviceno tr;
    cbn [DetectDevices_card].
  - split; reflexivity.
  - unfold bind, DetectDevices_round. step_monad.
    rewrite Hname, Z.eqb_refl. step_monad.
    destruct (Hopen (S (List.length tr)) deviceno) as [Hne1 Hne2].
    destruct (Z.eqb_spec
                (fst (open_at W (S (List.length tr)) card deviceno
                        SND_PCM_OPEN_PLAYBACK)) EOK) as [He | _];
      [contradiction | ].
    step_monad.
    destruct (Z.eqb_spec
                (fst (open_at W (S (List.length tr)) card deviceno
                        SND_PCM_OPEN_PLAYBACK)) (- ENOENT)) as [He | _];
      [contradiction | ].
    step_monad.
    match goal with
    | |- context [DetectDevices_card _ _ _ _ ?d ?t] =>
        destruct (IH d t) as [IH1 IH2]
    end.
    rewrite IH1, IH2. split; [reflexivity | ]. cbn [List.length]. lia.
Qed.

End DetectMore.


(** X7.  Two reported devices with the same handle are the same card
    and device number, as long as cards and device numbers stay below
    2^16. *)
Theorem sdlhandle_identifies_device {H : Headers} (W : Native) (dh : Z)
    (fuel : nat) (cards : list Z)
    (r1 r2 : bool) (n1 n2 : string) (d1 d2 : Z)
    (p1 p2 : option SDL_AudioSpec) (sdlhandle : Z) :
  (forall card, In card cards -> 0 <= card <= 0xFFFF) ->
  0 <= d1 <= 0xFFFF -> 0 <= d2 <= 0xFFFF ->
  In (SDL_AddAudioDevice r1 n1 d1 p1 sdlhandle)
     (snd (DetectDevices_cards W dh fuel cards [])) ->
  In (SDL_AddAudioDevice r2 n2 d2 p2 sdlhandle)
     (snd (DetectDevices_cards W dh fuel cards [])) ->
  d1 = d2 /\
  exists card pcm1 pcm2,
    In card cards /\
    In (snd_pcm_open card d1 SND_PCM_OPEN_PLAYBACK EOK pcm1)
       (snd (DetectDevices_cards W dh fuel cards [])) /\
    In (snd_pcm_open card d2 SND_PCM_OPEN_PLAYBACK EOK pcm2)
       (snd (DetectDevices_cards W dh fuel cards [])).
Proof.
  intros Hcards Hd1 Hd2 Hin1 Hin2.
  destruct (DetectDevices_reported W dh fuel cards
              _ _ _ _ _ Hin1)
    as [_ [c1 [pcm1 [rs1 [cs1 [l1 [e1 [Hc1 [Htr1 [Hpack1 _]]]]]]]]]].
  destruct (DetectDevices_reported W dh fuel cards
              _ _ _ _ _ Hin2)
    as [_ [c2 [pcm2 [rs2 [cs2 [l2 [e2 [Hc2 [Htr2 [Hpack2 _]]]]]]]]]].
  destruct (pack_unpack c1 d1 (Hcards c1 Hc1) Hd1) as [_ [Ha1 Hb1]].
  destruct (pack_unpack c2 d2 (Hcards c2 Hc2) Hd2) as [_ [Ha2 Hb2]].
  cbv zeta in Ha1, Hb1, Ha2, Hb2.
  rewrite <- Hpack1 in Ha1, Hb1. rewrite <- Hpack2 in Ha2, Hb2.
  assert (Hc : c2 = c1) by congruence.
  assert (Hd : d1 = d2) by congruence.
  rewrite Hc in Htr2. split; [exact Hd | ].
  exists c1, pcm1, pcm2. split; [exact Hc1 | ]. split.
  - rewrite Htr1. apply in_or_app. right.
    right. right. right. left. reflexivity.
  - rewrite Htr2. apply in_or_app. right.
    right. right. right. left. reflexivity.
Qed.

(** ** Writing and waiting *)

Lemma no_writes_among_reads (tr : trace) :
  forallb is_shutdown_read tr = true -> filter is_write tr = [].
Proof.
  induction tr as [| e tr IH]; [reflexivity | ].
  simpl. intros Hall. apply andb_prop in Hall as [He Hl].
  destruct e; try discriminate. simpl. now apply IH.
Qed.

Section PlayMore.
Context {H : Headers}.
Variable W : Native.

(** The native write of a call of [QSA_PlayDevice]: there is one, made
    in the block, on the handle of the device, from the start of the
    caller's buffer, for [buflen] bytes. *)
Lemma QSA_PlayDevice_the_write (fuel : nat) (device : SDL_AudioDevice)
    (buffer buflen pcm buf size bw errno : Z) :
  In (snd_pcm_plugin_write pcm buf size bw errno)
     (snd (QSA_PlayDevice W fuel device buffer buflen [])) ->
  exists h tr0,
    hidden device = Some h /\
    forallb is_shutdown_read tr0 = true /\
    QSA_PlayDevice W fuel device buffer buflen [] =
      (Some (after_block (fst (PlayDevice_block W device h buffer buflen tr0))),
       snd (PlayDevice_block W device h buffer buflen tr0)) /\
    write_at W (List.length tr0) (audio_handle h) buffer buflen = (bw, errno) /\
    pcm = audio_handle h /\ buf = buffer /\ size = buflen.
Proof.
  intros Hin.
  destruct (QSA_PlayDevice_through_block W fuel device buffer buflen _ Hin
              eq_refl) as [h [tr0 [Hh [Hreads [_ Hrun]]]]].
  exists h, tr0. split; [exact Hh | ]. split; [exact Hreads | ].
  split; [exact Hrun | ].
  rewrite Hrun in Hin. cbn [snd] in Hin.
  destruct (PlayDevice_block_trace W device h buffer buflen tr0)
    as [later [Htr Hlater]].
  rewrite Htr in Hin. apply in_app_or in Hin as [Hin | [Heq | Hin]].
  - pose proof (forallb_In _ _ _ Hlater Hin) as Hf. discriminate.
  - injection Heq as <- <- <- Hbw Herr.
    destruct (write_at W (List.length tr0) (audio_handle h) buffer buflen).
    cbn [fst snd] in *. subst. now repeat split.
  - pose proof (forallb_In _ _ _ Hreads Hin) as Hf. discriminate.
Qed.

(** The guard of lines 115-117: with the shutdown signal set, or on a
    device without its private block, the call returns true after the
    read of the signal. *)
Lemma QSA_PlayDevice_shutdown_or_closed (fuel : nat)
    (device : SDL_AudioDevice) (buffer buflen : Z) (tr : trace) :
  shutdown_at W (List.length tr) = true \/ hidden device = None ->
  QSA_PlayDevice W fuel device buffer buflen tr =
    (Some true,
     SDL_GetAtomicInt_shutdown (shutdown_at W (List.length tr)) :: tr).
Proof.
  intros Hguard. unfold QSA_PlayDevice. step_monad.
  destruct (shutdown_at W (List.length tr)); [reflexivity | ].
  destruct Hguard as [Hs | ->]; [discriminate | reflexivity].
Qed.

(** X12.  A call of [QSA_PlayDevice] writes only if the shutdown
    signal was unset at entry and the device has its private block; the
    write is on the handle of the device, reads from the start of the
    caller's buffer and asks for [buflen] bytes, and it is the only
    write of the call. *)
Theorem QSA_PlayDevice_write_arguments (fuel : nat) (device : SDL_AudioDevice)
    (buffer buflen pcm buf size bw errno : Z) :
  In (snd_pcm_plugin_write pcm buf size bw errno)
     (snd (QSA_PlayDevice W fuel device buffer buflen [])) ->
  shutdown_at W 0%nat = false /\
  (exists h, hidden device = Some h /\ pcm = audio_handle h) /\
  buf = buffer /\ size = buflen /\
  count_events is_write (snd (QSA_PlayDevice W fuel device buffer buflen []))
    = 1%nat.
Proof.
  intros Hin.
  split.
  { destruct (shutdown_at W 0%nat) eqn:Hs; [ | reflexivity].
    rewrite (QSA_PlayDevice_shutdown_or_closed fuel device buffer buflen []
               (or_introl Hs)) in Hin.
    destruct Hin as [Hin | []]. discriminate. }
  destruct (QSA_PlayDevice_the_write fuel device buffer buflen _ _ _ _ _ Hin)
    as [h [tr0 [Hh [Hreads [Hrun [_ [Hp [Hb Hs]]]]]]]].
  split; [now exists h | ]. split; [exact Hb | ]. split; [exact Hs | ].
  rewrite Hrun. cbn [snd].
  destruct (PlayDevice_block_trace W device h buffer buflen tr0)
    as [later [Htr Hlater]].
  rewrite Htr. unfold count_events.
  rewrite filter_app, length_app. cbn [filter is_write List.length].
  assert (H1 : filter is_write later = []).
  { clear Htr. induction later as [| e later IH]; [reflexivity | ].
    simpl in Hlater. apply andb_prop in Hlater as [He Hl].
    apply andb_prop in He as [He _].
    simpl. destruct (is_write e); [discriminate | now apply IH]. }
  rewrite H1, (no_writes_among_reads tr0 Hreads). reflexivity.
Qed.

(** X13.  When the native write takes all the bytes it was asked for,
    [QSA_PlayDevice] returns true, and the write is its last call. *)
Theorem QSA_PlayDevice_full_write (fuel : nat) (device : SDL_AudioDevice)
    (buffer buflen pcm buf size errno : Z) :
  In (snd_pcm_plugin_write pcm buf size size errno)
     (snd (QSA_PlayDevice W fuel device buffer buflen [])) ->
  fst (QSA_PlayDevice W fuel device buffer buflen []) = Some true /\
  exists before,
    snd (QSA_PlayDevice W fuel device buffer buflen []) =
      snd_pcm_plugin_write pcm buf size size errno :: before /\
    forallb is_shutdown_read before = true.
Proof.
  intros Hin.
  destruct (QSA_PlayDevice_the_write fuel device buffer buflen _ _ _ _ _ Hin)
    as [h [tr0 [Hh [Hreads [Hrun [Hwr [-> [-> ->]]]]]]]].
  rewrite Hrun. cbn [fst snd].
  unfold PlayDevice_block. step_monad. rewrite Hwr. step_monad.
  rewrite Z.eqb_refl. cbn [negb]. step_monad.
  unfold after_block. rewrite Z.sub_diag.
  split; [reflexivity | ]. exists tr0. now split.
Qed.

(** X14.  When the native write falls short with [errno] none of
    [EAGAIN], [EWOULDBLOCK], [EINVAL] and [EIO], [QSA_PlayDevice]
    returns false at once: no delay, no status query, no error report
    follows the write. *)
Theorem QSA_PlayDevice_other_error (fuel : nat) (device : SDL_AudioDevice)
    (buffer buflen pcm buf size bw errno : Z) :
  In (snd_pcm_plugin_write pcm buf size bw errno)
     (snd (QSA_PlayDevice W fuel device buffer buflen [])) ->
  bw <> size ->
  errno <> EAGAIN -> errno <> EWOULDBLOCK ->
  errno <> EINVAL -> errno <> EIO ->
  fst (QSA_PlayDevice W fuel device buffer buflen []) = Some false /\
  exists before,
    snd (QSA_PlayDevice W fuel device buffer buflen []) =
      snd_pcm_plugin_write pcm buf size bw errno :: before /\
    forallb is_shutdown_read before = true.
Proof.
  intros Hin Hshort H1 H2 H3 H4.
  destruct (QSA_PlayDevice_the_write fuel device buffer buflen _ _ _ _ _ Hin)
    as [h [tr0 [Hh [Hreads [Hrun [Hwr [-> [-> ->]]]]]]]].
  rewrite Hrun. cbn [fst snd].
  unfold PlayDevice_block. step_monad. rewrite Hwr. step_monad.
  destruct (Z.eqb_spec bw buflen); [contradiction | ].
  destruct (Z.eqb_spec errno EAGAIN); [contradiction | ].
  destruct (Z.eqb_spec errno EWOULDBLOCK); [contradiction | ].
  destruct (Z.eqb_spec errno EINVAL); [contradiction | ].
  destruct (Z.eqb_spec errno EIO); [contradiction | ].
  cbn [negb andb orb]. step_monad.
  split; [reflexivity | ]. exists tr0. now split.
Qed.

(** X15.  However the block of lines 123-164 ends short of a
    [return]: the cursor has moved by the decrease of the remaining
    count times the channel count.  So for a mono device cursor plus
    remaining count is kept, and on the paths that keep the remaining
    count (the status query and the re-prepare) the cursor stays. *)
Theorem PlayDevice_block_cursor_invariant (device : SDL_AudioDevice)
    (h : SDL_PrivateAudioData) (buffer towrite : Z) (tr : trace) :
  match fst (PlayDevice_block W device h buffer towrite tr) with
  | Return _ => True
  | Continue buffer' towrite' | EndOfBlock buffer' towrite' =>
      buffer' - buffer = (towrite - towrite') * channels (spec device) /\
      (channels (spec device) = 1 -> buffer' + towrite' = buffer + towrite) /\
      (towrite' = towrite -> buffer' = buffer)
  end.
Proof.
  unfold PlayDevice_block. step_monad.
  repeat match goal with
  | |- context [if ?c then _ else _] => destruct c; step_monad
  end; try exact I; repeat split; intros; try nia.
Qed.

End PlayMore.

Section RecoveryMore.
Context {H : Headers}.
Variable W : Native.

(** X16.  A write that fails with [EINVAL] or [EIO], on a channel that
    then reports underrun or ready, is answered by exactly one
    [snd_pcm_plugin_prepare], on the same handle and for the direction
    of the device; when that succeeds the block ends at [continue] with
    the cursor and the remaining count unchanged, and no error is
    reported. *)
Theorem PlayDevice_block_underrun_recovery (device : SDL_AudioDevice)
    (h : SDL_PrivateAudioData) (buffer towrite : Z) (tr : trace)
    (bw errno ret st pr : Z) :
  write_at W (List.length tr) (audio_handle h) buffer towrite = (bw, errno) ->
  bw <> towrite ->
  errno <> EAGAIN -> errno <> EWOULDBLOCK ->
  errno = EINVAL \/ errno = EIO ->
  status_at W (S (List.length tr)) (audio_handle h) (channel_of device)
    = (ret, st) ->
  0 <= ret ->
  st = SND_PCM_STATUS_UNDERRUN \/ st = SND_PCM_STATUS_READY ->
  prepare_at W (S (S (List.length tr))) (audio_handle h) (channel_of device)
    = pr ->
  0 <= pr ->
  PlayDevice_block W device h buffer towrite tr =
    (Continue buffer towrite,
     [snd_pcm_plugin_prepare (audio_handle h) (channel_of device) pr;
      snd_pcm_plugin_status (audio_handle h) (channel_of device) ret st;
      snd_pcm_plugin_write (audio_handle h) buffer towrite bw errno] ++ tr).
Proof.
  intros Hwr Hshort Hne1 Hne2 Hfault Hst Hret Hstat Hpr Hok.
  destruct (PlayDevice_block_fault W device h buffer towrite tr bw errno
              ret st Hwr Hshort Hne1 Hne2 Hfault Hst) as [_ [_ [_ Hrec]]].
  cbv zeta in Hrec. rewrite Hpr in Hrec. now apply Hrec.
Qed.


(** X18.  A wait that returned true, then a write that transfers
    nothing with [EAGAIN]: after a wait that timed out the block ends at
    [return true] with no further call; after a wait that found the
    descriptor ready it sleeps 1 ms and ends at [continue] with the
    cursor and the remaining count unchanged. *)
Theorem QSA_WaitDevice_then_stall (device device' : SDL_AudioDevice)
    (h h' : SDL_PrivateAudioData) (tr tr' tr'' : trace)
    (buffer towrite : Z) :
  hidden device = Some h ->
  QSA_WaitDevice W device tr = (Some (true, device'), tr') ->
  hidden device' = Some h' ->
  let result := ioready_at W (List.length tr) (audio_fd h)
                  (if recording device then SDL_IOR_READ else SDL_IOR_WRITE)
                  2000 in
  write_at W (List.length tr'') (audio_handle h') buffer towrite
    = (0, EAGAIN) ->
  towrite <> 0 ->
  let wr := snd_pcm_plugin_write (audio_handle h') buffer towrite 0 EAGAIN in
  PlayDevice_block W device' h' buffer towrite tr'' =
    if result =? 0 then (Return true, wr :: tr'')
    else (Continue buffer towrite, SDL_Delay 1 :: wr :: tr'').
Proof.
  intros Hh Hwait Hh' result Hwr Hnz wr.
  assert (Hflag : timeout_on_wait h' = (result =? 0)).
  { revert Hwait. unfold QSA_WaitDevice. rewrite Hh. step_monad.
    change (2 * 1000) with 2000. fold result.
    destruct (result =? -1); step_monad; [discriminate | ].
    destruct (result =? 0); step_monad; intros Heq;
      injection Heq as <- _; cbn [set_timeout_on_wait hidden] in Hh';
      injection Hh' as <-; reflexivity. }
  unfold PlayDevice_block. step_monad. rewrite Hwr. step_monad.
  destruct (Z.eqb_spec 0 towrite) as [He | _]; [congruence | ].
  rewrite Z.eqb_refl, Hflag. cbn [negb andb orb].
  destruct (result =? 0); step_monad; [reflexivity | ].
  now rewrite Z.mul_0_l, Z.add_0_r, Z.sub_0_r.
Qed.

End RecoveryMore.

(** ** What an open leaves alone *)

Section OpenKeeps.
Context {H : Headers}.
Variable W : Native.

(** X19.  [QSA_OpenDevice] releases nothing: no call of it closes or
    flushes a handle or frees memory, not even on its failure paths,
    which leave that to [QSA_CloseDevice].  Nor does it look at the
    private block the device had before: for a playback device the
    calls, the result and the device it leaves are the same whatever
    [hidden] held, so that a second open without a close in between
    abandons the handle and the buffer of the first. *)
Theorem QSA_OpenDevice_releases_nothing (device : SDL_AudioDevice)
    (h0 : option SDL_PrivateAudioData) :
  (forall e, In e (snd (QSA_OpenDevice W device [])) ->
     match e with
     | snd_pcm_close _ _ | snd_pcm_plugin_flush _ _
     | SDL_free_pcm_buf _ | SDL_free_hidden => False
     | _ => True
     end) /\
  (recording device = false ->
   QSA_OpenDevice W (set_hidden device h0) [] = QSA_OpenDevice W device []).
Proof.
  split.
  - intros e. unfold QSA_OpenDevice.
    destruct (recording device) eqn:Hrec; step_monad.
    + intros [<- | []]. exact I.
    + split_ifs; intros Hin; cbn [In] in Hin;
        repeat (destruct Hin as [<- | Hin]; [exact I | ]);
        contradiction.
  - intros Hrec. destruct device as [sp rec hd sf bs sv hid].
    cbn [recording] in Hrec. subst rec. reflexivity.
Qed.

End OpenKeeps.

(** ** Instances *)


Lemma QSA_OpenDevice_failure_witness :
  let Wf := open_world [0x8010] (-2, 0) in
  let run := @QSA_OpenDevice qnx_le Wf (closed_device 0x8010) [] in
  run = ((false, snd (fst run)), snd run) /\
  exists ret,
    ret < 0 /\
    In (SDL_SetError "QSA: snd_pcm_open() failed: %s" (Some ret)) (snd run).
Proof.
  intros Wf run. split; [reflexivity | ].
  destruct (@QSA_OpenDevice_failure qnx_le Wf (closed_device 0x8010)
              (snd (fst run)) (snd run) eq_refl)
    as [[Hr _] | [[_ Ht] | [Hopen | [Hfmt | [Hpar | [Hset | [Hmal | [Hfd
         | Hprep]]]]]]]].
  - discriminate Hr.
  - discriminate Ht.
  - destruct Hopen as [c [d [m [ret [pcm [before [Hneg [_ Ht]]]]]]]].
    exists ret. split; [exact Hneg | ]. rewrite Ht. now left.
  - destruct Hfmt as [f [cl [before [_ Ht]]]]. discriminate Ht.
  - destruct Hpar as [p [cp [ret [before [_ Ht]]]]]. discriminate Ht.
  - destruct Hset as [p [ch [ret [cs [before [_ Ht]]]]]]. discriminate Ht.
  - destruct Hmal as [size [before Ht]]. discriminate Ht.
  - destruct Hfd as [p [ch [fd [before [_ Ht]]]]]. discriminate Ht.
  - destruct Hprep as [p [ch [ret [before [_ Ht]]]]]. discriminate Ht.
Defined.

Lemma QSA_OpenDevice_submitted_params_witness :
  let Wo := open_world [0x8010] (0, 7) in
  let cp := @set_cparams_format (@QSA_InitAudioParams qnx_le) 4 2 48000 in
  In (snd_pcm_plugin_params 7 cp 0)
     (snd (@QSA_OpenDevice qnx_le Wo (closed_device 0x8010) [])) /\
  cp_voices cp = 2 /\ cp_rate cp = 48000.
Proof.
  intros Wo cp.
  assert (Hin : In (snd_pcm_plugin_params 7 cp 0)
                  (snd (@QSA_OpenDevice qnx_le Wo (closed_device 0x8010) [])))
    by (vm_compute; tauto).
  split; [exact Hin | ].
  destruct (@QSA_OpenDevice_submitted_params qnx_le Wo (closed_device 0x8010)
              7 cp 0 Hin)
    as [_ [_ [_ [_ [_ [_ [_ [_ [Hv [Hr _]]]]]]]]]].
  split; [exact Hv | exact Hr].
Defined.

Lemma DetectDevices_closes_every_handle_witness :
  In (snd_pcm_open 0 0 1 (@EOK qnx_le) 7)
     (snd (@DetectDevices_cards qnx_le detect_world 99 3 [0] [])) /\
  exists rc, In (snd_pcm_close 7 rc)
               (snd (@DetectDevices_cards qnx_le detect_world 99 3 [0] [])).
Proof.
  assert (Hin : In (snd_pcm_open 0 0 1 (@EOK qnx_le) 7)
                  (snd (@DetectDevices_cards qnx_le detect_world 99 3 [0] [])))
    by (vm_compute; tauto).
  split; [exact Hin | ].
  destruct (@DetectDevices_closes_every_handle qnx_le detect_world 99 3 [0]
              0 0 1 7 Hin) as [later [earlier [rs [cs [rc Htr]]]]].
  exists rc. rewrite Htr. apply in_or_app. right. now left.
Defined.

Lemma DetectDevices_reports_after_open_and_close_witness :
  let aspec := {| format := 0x8010; channels := 2; freq := 48000 |} in
  In (SDL_AddAudioDevice false "card" 0 (Some aspec) 0)
     (snd (@DetectDevices_cards qnx_le detect_world 7 3 [0] [])) /\
  exists card pcm,
    In (snd_pcm_open card 0 (@SND_PCM_OPEN_PLAYBACK qnx_le) (@EOK qnx_le) pcm)
       (snd (@DetectDevices_cards qnx_le detect_world 7 3 [0] [])).
Proof.
  intros aspec.
  assert (Hin : In (SDL_AddAudioDevice false "card" 0 (Some aspec) 0)
                  (snd (@DetectDevices_cards qnx_le detect_world 7 3 [0] [])))
    by (vm_compute; tauto).
  split; [exact Hin | ].
  destruct (@DetectDevices_reports_after_open_and_close qnx_le detect_world 7
              3 [0] false "card" 0 (Some aspec) 0 Hin)
    as [_ [card [pcm [rs [cs [later [earlier [_ [Htr _]]]]]]]]].
  exists card, pcm. rewrite Htr. apply in_or_app. right. simpl. tauto.
Defined.

Lemma DetectDevices_reported_format_in_table_witness :
  let aspec := {| format := 0x8010; channels := 2; freq := 48000 |} in
  (@SDL_AUDIO_S16 qnx_le = @SDL_AUDIO_S16LSB qnx_le \/
   @SDL_AUDIO_S16 qnx_le = @SDL_AUDIO_S16MSB qnx_le) /\
  In (SDL_AddAudioDevice false "card" 0 (Some aspec) 0)
     (snd (@DetectDevices_cards qnx_le detect_world 7 3 [0] [])) /\
  In (format aspec) (@sdl_table_formats qnx_le).
Proof.
  intros aspec.
  assert (Halias : @SDL_AUDIO_S16 qnx_le = @SDL_AUDIO_S16LSB qnx_le \/
                   @SDL_AUDIO_S16 qnx_le = @SDL_AUDIO_S16MSB qnx_le)
    by (left; reflexivity).
  assert (Hin : In (SDL_AddAudioDevice false "card" 0 (Some aspec) 0)
                  (snd (@DetectDevices_cards qnx_le detect_world 7 3 [0] [])))
    by (vm_compute; tauto).
  split; [exact Halias | ]. split; [exact Hin | ].
  exact (@DetectDevices_reported_format_in_table qnx_le detect_world 7 3 [0]
           false "card" 0 aspec 0 Halias Hin).
Defined.

Lemma DetectDevices_card_keeps_probing_witness :
  let Wb := probe_world (0, "card") (fun _ => (-13, 0)) in
  (forall t, fst (longname_at Wb t 0) = @EOK qnx_le) /\
  (forall t d,
     fst (open_at Wb t 0 d (@SND_PCM_OPEN_PLAYBACK qnx_le)) <> @EOK qnx_le /\
     fst (open_at Wb t 0 d (@SND_PCM_OPEN_PLAYBACK qnx_le))
       <> - @ENOENT qnx_le) /\
  fst (@DetectDevices_card qnx_le Wb 99 1000 0 0 []) = false.
Proof.
  intros Wb.
  assert (Hname : forall t, fst (longname_at Wb t 0) = @EOK qnx_le)
    by (intros t; reflexivity).
  assert (Hopen : forall t d,
            fst (open_at Wb t 0 d (@SND_PCM_OPEN_PLAYBACK qnx_le))
              <> @EOK qnx_le /\
            fst (open_at Wb t 0 d (@SND_PCM_OPEN_PLAYBACK qnx_le))
              <> - @ENOENT qnx_le)
    by (intros t d; split; simpl; lia).
  split; [exact Hname | ]. split; [exact Hopen | ].
  exact (proj1 (@DetectDevices_card_keeps_probing qnx_le Wb 99 1000 0 0 []
                  Hname Hopen)).
Defined.


Lemma QSA_PlayDevice_write_arguments_witness :
  let Wp := play_world (shutdown_from 1) write_all (0, 0) 0 in
  In (snd_pcm_plugin_write 7 1000 8 8 0)
     (snd (@QSA_PlayDevice qnx_le Wp 5 (stereo_device false) 1000 8 [])) /\
  count_events is_write
    (snd (@QSA_PlayDevice qnx_le Wp 5 (stereo_device false) 1000 8 []))
    = 1%nat.
Proof.
  intros Wp.
  assert (Hin : In (snd_pcm_plugin_write 7 1000 8 8 0)
                  (snd (@QSA_PlayDevice qnx_le Wp 5 (stereo_device false)
                          1000 8 [])))
    by (vm_compute; tauto).
  split; [exact Hin | ].
  exact (proj2 (proj2 (proj2 (proj2
           (@QSA_PlayDevice_write_arguments qnx_le Wp 5 (stereo_device false)
              1000 8 7 1000 8 8 0 Hin))))).
Defined.

Lemma QSA_PlayDevice_full_write_witness :
  let Wp := play_world (shutdown_from 1) write_all (0, 0) 0 in
  In (snd_pcm_plugin_write 7 1000 8 8 0)
     (snd (@QSA_PlayDevice qnx_le Wp 5 (stereo_device false) 1000 8 [])) /\
  fst (@QSA_PlayDevice qnx_le Wp 5 (stereo_device false) 1000 8 [])
    = Some true.
Proof.
  intros Wp.
  assert (Hin : In (snd_pcm_plugin_write 7 1000 8 8 0)
                  (snd (@QSA_PlayDevice qnx_le Wp 5 (stereo_device false)
                          1000 8 [])))
    by (vm_compute; tauto).
  split; [exact Hin | ].
  exact (proj1 (@QSA_PlayDevice_full_write qnx_le Wp 5 (stereo_device false)
                  1000 8 7 1000 8 0 Hin)).
Defined.

Lemma QSA_PlayDevice_other_error_witness :
  let Wp := play_world (shutdown_from 1) (write_fails_until 100 9) (0, 0) 0 in
  In (snd_pcm_plugin_write 7 1000 8 (-1) 9)
     (snd (@QSA_PlayDevice qnx_le Wp 5 (stereo_device false) 1000 8 [])) /\
  (-1 <> 8 /\ 9 <> @EAGAIN qnx_le /\ 9 <> @EWOULDBLOCK qnx_le /\
   9 <> @EINVAL qnx_le /\ 9 <> @EIO qnx_le) /\
  fst (@QSA_PlayDevice qnx_le Wp 5 (stereo_device false) 1000 8 [])
    = Some false.
Proof.
  intros Wp.
  assert (Hin : In (snd_pcm_plugin_write 7 1000 8 (-1) 9)
                  (snd (@QSA_PlayDevice qnx_le Wp 5 (stereo_device false)
                          1000 8 [])))
    by (vm_compute; tauto).
  assert (H0 : -1 <> 8) by lia.
  assert (H1 : 9 <> @EAGAIN qnx_le) by (simpl; lia).
  assert (H2 : 9 <> @EWOULDBLOCK qnx_le) by (simpl; lia).
  assert (H3 : 9 <> @EINVAL qnx_le) by (simpl; lia).
  assert (H4 : 9 <> @EIO qnx_le) by (simpl; lia).
  split; [exact Hin | ]. split; [now repeat split | ].
  exact (proj1 (@QSA_PlayDevice_other_error qnx_le Wp 5 (stereo_device false)
                  1000 8 7 1000 8 (-1) 9 Hin H0 H1 H2 H3 H4)).
Defined.

Lemma PlayDevice_block_underrun_recovery_witness :
  let Wu := play_world (fun _ => false) (write_fails_until 3 5) (0, 4) 0 in
  (write_at Wu 0 7 1000 8 = (-1, 5) /\ -1 <> 8 /\
   5 <> @EAGAIN qnx_le /\ 5 <> @EWOULDBLOCK qnx_le /\
   (5 = @EINVAL qnx_le \/ 5 = @EIO qnx_le) /\
   status_at Wu 1 7 1 = (0, 4) /\ 0 <= 0 /\
   (4 = @SND_PCM_STATUS_UNDERRUN qnx_le \/ 4 = @SND_PCM_STATUS_READY qnx_le) /\
   prepare_at Wu 2 7 1 = 0) /\
  @PlayDevice_block qnx_le Wu (stereo_device false) (open_hidden false)
     1000 8 [] =
    (Continue 1000 8,
     [snd_pcm_plugin_prepare 7 1 0; snd_pcm_plugin_status 7 1 0 4;
      snd_pcm_plugin_write 7 1000 8 (-1) 5]).
Proof.
  intros Wu.
  assert (H0 : -1 <> 8) by lia.
  assert (H1 : 5 <> @EAGAIN qnx_le) by (simpl; lia).
  assert (H2 : 5 <> @EWOULDBLOCK qnx_le) by (simpl; lia).
  assert (H3 : 5 = @EINVAL qnx_le \/ 5 = @EIO qnx_le) by (right; reflexivity).
  assert (H4 : 0 <= 0) by lia.
  assert (H5 : 4 = @SND_PCM_STATUS_UNDERRUN qnx_le \/
               4 = @SND_PCM_STATUS_READY qnx_le) by (left; reflexivity).
  split; [now repeat split | ].
  exact (@PlayDevice_block_underrun_recovery qnx_le Wu (stereo_device false)
           (open_hidden false) 1000 8 [] (-1) 5 0 4 0
           eq_refl H0 H1 H2 H3 eq_refl H4 H5 eq_refl H4).
Defined.


Lemma QSA_WaitDevice_then_stall_witness :
  let Ws := play_world (fun _ => false) (write_none 11) (0, 0) 0 in
  (hidden (stereo_device true) = Some (open_hidden true) /\
   @QSA_WaitDevice qnx_le Ws (stereo_device true) [] =
     (Some (true, stereo_device false), [SDL_IOReady 3 2 2000 1]) /\
   hidden (stereo_device false) = Some (open_hidden false) /\
   write_at Ws 1 7 1000 8 = (0, @EAGAIN qnx_le) /\ 8 <> 0) /\
  @PlayDevice_block qnx_le Ws (stereo_device false) (open_hidden false)
     1000 8 [SDL_IOReady 3 2 2000 1] =
    (Continue 1000 8,
     [SDL_Delay 1; snd_pcm_plugin_write 7 1000 8 0 11;
      SDL_IOReady 3 2 2000 1]).
Proof.
  intros Ws.
  assert (H8 : 8 <> 0) by lia.
  split; [now repeat split | ].
  exact (@QSA_WaitDevice_then_stall qnx_le Ws (stereo_device true)
           (stereo_device false) (open_hidden true) (open_hidden false)
           [] [SDL_IOReady 3 2 2000 1] [SDL_IOReady 3 2 2000 1] 1000 8
           eq_refl eq_refl eq_refl eq_refl H8).
Defined.

Lemma sdlhandle_identifies_device_witness :
  let aspec := {| format := 0x8010; channels := 2; freq := 48000 |} in
  (forall card, In card [0] -> 0 <= card <= 0xFFFF) /\
  0 <= 0 <= 0xFFFF /\
  In (SDL_AddAudioDevice false "card" 0 (Some aspec) 0)
     (snd (@DetectDevices_cards qnx_le detect_world 7 3 [0] [])) /\
  exists card pcm,
    In card [0] /\
    In (snd_pcm_open card 0 (@SND_PCM_OPEN_PLAYBACK qnx_le) (@EOK qnx_le) pcm)
       (snd (@DetectDevices_cards qnx_le detect_world 7 3 [0] [])).
Proof.
  intros aspec.
  assert (Hcards : forall card, In card [0] -> 0 <= card <= 0xFFFF)
    by (intros card [<- | []]; lia).
  assert (Hdev : 0 <= 0 <= 0xFFFF) by lia.
  assert (Hadd : In (SDL_AddAudioDevice false "card" 0 (Some aspec) 0)
                   (snd (@DetectDevices_cards qnx_le detect_world 7 3 [0] [])))
    by (vm_compute; tauto).
  split; [exact Hcards | ]. split; [exact Hdev | ]. split; [exact Hadd | ].
  destruct (@sdlhandle_identifies_device qnx_le detect_world 7 3 [0]
              false false "card" "card" 0 0 (Some aspec) (Some aspec) 0
              Hcards Hdev Hdev Hadd Hadd)
    as [_ [card [pcm1 [pcm2 [Hc [Ho _]]]]]].
  now exists card, pcm1.
Defined.
